(** * builder-assistant: the patch acquisition and application protocol

  A shallow embedding of [index.js] (the AI code-mod bot) and the
  properties of its context sampler and of its apply-or-retry pipeline.

  - JavaScript strings are sequences of UTF-16 code units: [list N].
  - The working tree is a snapshot: the list [globby] returned, and the
    answers of [fs.stat] and [fs.readFile] for each relative path.
  - Numbers the sampler computes with are integers far below 2^53, so
    JavaScript's doubles are exact on them and [Z] models them; the two
    limits of the sampler are a number of files and a number of bytes,
    and a file size is a number of bytes: naturals, [N].
  - The run of the program is a function of the world around it to the
    history of what it did to that world and its exit status. *)

From Stdlib Require Import String Ascii.
From Stdlib Require Import List ZArith NArith Lia Bool.
From Stdlib Require Import Sorting.Sorted Sorting.Permutation.
From Stdlib Require DecimalString.
From Equations Require Import Equations.
Import ListNotations.

Set Implicit Arguments.

(* ================================================================== *)
(** ** JavaScript strings *)
(* ================================================================== *)

Module JS.

Definition code_unit := N.
Definition jsstring := list code_unit.

(** An ASCII string literal of the source. The pictographs and marks of
    the console messages are written as their code units next to it. *)
Definition lit (s : string) : jsstring :=
  map N_of_ascii (list_ascii_of_string s).
Arguments lit s%_string.

(** [a === b] on strings. *)
Fixpoint eqb (a b : jsstring) : bool :=
  match a, b with
  | [], [] => true
  | x :: a', y :: b' => N.eqb x y && eqb a' b'
  | _, _ => false
  end.

(** [parts.join(sep)] *)
Fixpoint join (sep : jsstring) (parts : list jsstring) : jsstring :=
  match parts with
  | [] => []
  | [p] => p
  | p :: rest => p ++ sep ++ join sep rest
  end.

(** ECMAScript WhiteSpace and LineTerminator code points, the ones
    [String.prototype.trim] strips; all lie in the basic plane. *)
Definition is_space (c : code_unit) : bool :=
  ((9 <=? c) && (c <=? 13) || (c =? 32) || (c =? 160) || (c =? 5760)
   || (8192 <=? c) && (c <=? 8202) || (c =? 8232) || (c =? 8233)
   || (c =? 8239) || (c =? 8287) || (c =? 12288) || (c =? 65279))%N.

Fixpoint trimStart (s : jsstring) : jsstring :=
  match s with
  | [] => []
  | c :: s' => if is_space c then trimStart s' else s
  end.

Definition trimEnd (s : jsstring) : jsstring := rev (trimStart (rev s)).

(** [s.trim()] *)
Definition trim (s : jsstring) : jsstring := trimEnd (trimStart s).

(** A string of white space only. *)
Definition blank (s : jsstring) : Prop := forallb is_space s = true.

(** [String(n)] for a non-negative integer. *)
Definition of_N (n : N) : jsstring :=
  lit (DecimalString.NilZero.string_of_uint (N.to_uint n)).

End JS.

Import JS.

(* ================================================================== *)
(** ** Results of fallible operations *)
(* ================================================================== *)

(** What a rejected promise or a thrown exception carries. *)
Inductive Error : Type :=
| IOError (path : jsstring)          (* fs.stat / fs.readFile rejects *)
| CommandFailed (msg : jsstring)     (* run(): a non-zero exit status *)
| PatchFailedTwice                   (* new Error("patch failed twice") *)
| TransportError (what : jsstring)   (* clone, checkout, commit, push, pulls.create *)
| ModelError.                        (* the chat completion call *)

Inductive result (A : Type) : Type :=
| Ok (a : A)
| Fail (e : Error).
Arguments Ok {A} a.
Arguments Fail {A} e.

(* ================================================================== *)
(** ** The context sampler: [sampleRepoContext] *)
(* ================================================================== *)

Module Sampler.

(** The checkout as the sampler sees it. [globby] is the array the
    glob call resolves to (discovery order); [stat] and [readFile]
    answer for a path relative to the root, [None] when the call
    rejects. *)
Record WorkingTree : Type := {
  globby   : list jsstring;
  stat     : jsstring -> option N;
  readFile : jsstring -> option jsstring
}.

(** [candidates.sort((a, b) => a.length - b.length)]: the engine's sort
    is stable (Node 18), so the result is the stable sort by length;
    here as an insertion sort. *)
Fixpoint insert_by_length (x : jsstring) (l : list jsstring) : list jsstring :=
  match l with
  | [] => [x]
  | y :: l' =>
      if (length x <=? length y)%nat then x :: y :: l'
      else y :: insert_by_length x l'
  end.

Fixpoint sort_by_length (l : list jsstring) : list jsstring :=
  match l with
  | [] => []
  | x :: l' => insert_by_length x (sort_by_length l')
  end.

(** The hard per-file cap of the admission test. *)
Definition FILE_CAP : N := 3000.

(** The [for ... of] loop, with its two variables [picked] and [budget]:
<<
    if (picked.length >= maxFiles) break;
    const { size } = await fs.stat(abs);
    if (size < 3_000 && budget - size > 0) { picked.push(f); budget -= size; }
>> *)
Fixpoint sampleLoop (t : WorkingTree) (maxFiles : N) (cands : list jsstring)
         (picked : list jsstring) (budget : Z) : result (list jsstring * Z) :=
  match cands with
  | [] => Ok (picked, budget)
  | f :: rest =>
      if (maxFiles <=? N.of_nat (length picked))%N then Ok (picked, budget)
      else
        match stat t f with
        | None => Fail (IOError f)
        | Some size =>
            if (size <? FILE_CAP)%N && (0 <? budget - Z.of_N size)%Z
            then sampleLoop t maxFiles rest (picked ++ [f]) (budget - Z.of_N size)
            else sampleLoop t maxFiles rest picked budget
        end
  end.

(** The files admitted, in admission order, for a limit of [maxFiles]
    files and a budget of [maxBytes] bytes. *)
Definition pickFiles (t : WorkingTree) (maxFiles maxBytes : N)
  : result (list jsstring) :=
  match sampleLoop t maxFiles (sort_by_length (globby t)) [] (Z.of_N maxBytes) with
  | Ok (picked, _) => Ok picked
  | Fail e => Fail e
  end.

(** [Promise.all(picked.map(async f => `FILE: ${f}\n${code}`))] *)
Fixpoint readParts (t : WorkingTree) (picked : list jsstring)
  : result (list jsstring) :=
  match picked with
  | [] => Ok []
  | f :: rest =>
      match readFile t f with
      | None => Fail (IOError f)
      | Some code =>
          match readParts t rest with
          | Ok parts => Ok ((lit "FILE: " ++ f ++ [10%N] ++ code) :: parts)
          | Fail e => Fail e
          end
      end
  end.

Definition END_FILE : jsstring :=
  [10%N; 10%N] ++ lit "<<<END FILE>>>" ++ [10%N; 10%N].

Definition sampleRepoContext (t : WorkingTree) (maxFiles maxBytes : N)
  : result jsstring :=
  match pickFiles t maxFiles maxBytes with
  | Fail e => Fail e
  | Ok picked =>
      match readParts t picked with
      | Fail e => Fail e
      | Ok parts => Ok (join END_FILE parts)
      end
  end.

(** The defaults of the parameter list. *)
Definition MAX_FILES : N := 25.
Definition MAX_BYTES : N := 40000.

(** The size [fs.stat] reports for a path (0 where it rejects), and the
    byte total of a list of admitted paths. *)
Definition size_of (t : WorkingTree) (f : jsstring) : Z :=
  match stat t f with
  | Some s => Z.of_N s
  | None => 0%Z
  end.

Definition total_bytes (t : WorkingTree) (picked : list jsstring) : Z :=
  fold_right (fun f acc => (size_of t f + acc)%Z) 0%Z picked.

(** The order the sort sorts by, and the candidates of one length. *)
Definition by_length (a b : jsstring) : Prop := (length a <= length b)%nat.

Definition of_length (k : nat) (l : list jsstring) : list jsstring :=
  filter (fun f => (length f =? k)%nat) l.

(** What the loop has done when, started with [picked] and [budget] on
    [cands], it hands back [picked'] and [budget']: it has appended
    candidates under the per-file cap, paid their sizes out of the
    budget, kept the budget positive and the count within the cap. *)
Inductive loop_post (t : WorkingTree) (maxFiles : N) (cands picked : list jsstring)
          (budget : Z) (picked' : list jsstring) (budget' : Z) : Prop :=
| loop_post_intro (new : list jsstring)
    (Hpicked : picked' = picked ++ new)
    (Hfrom : forall f, In f new ->
               In f cands /\ exists s, stat t f = Some s /\ (s < FILE_CAP)%N)
    (Hbudget : budget' = (budget - total_bytes t new)%Z)
    (Hpositive : new <> [] -> (0 < budget')%Z)
    (Hcount : (N.of_nat (length picked) <= maxFiles)%N ->
              (N.of_nat (length picked') <= maxFiles)%N).

End Sampler.

(* ================================================================== *)
(** ** The pipeline: [run], [askForPatch], [applyOrRetry], [main] *)
(* ================================================================== *)

Module Bot.

Import Sampler.

Record Message : Type := { role : jsstring; content : jsstring }.

(** The argument of [octokit.pulls.create]. A variable of
    [process.env] that is not set is [undefined]: [None]. *)
Record PullRequest : Type := {
  owner : option jsstring;
  repo  : option jsstring;
  title : jsstring;
  head  : jsstring;
  base  : jsstring;
  body  : jsstring
}.

(** What the process does to the outside, each call with its outcome. *)
Inductive Event : Type :=
| ConsoleLog (msg : jsstring)
| ConsoleError (msg : jsstring)
| ConsoleErrorObj (err : Error)
| Mkdtemp (prefix : jsstring) (dir : option jsstring)
| GitClone (remote dir : jsstring) (options : list jsstring) (ok : bool)
| GitCheckoutLocalBranch (dir branch : jsstring) (ok : bool)
| ChatCompletion (model : jsstring) (temperature : Z)
                 (messages : list Message) (reply : option jsstring)
| Spawn (cmd : jsstring) (args : list jsstring) (cwd input : jsstring)
        (status : option Z)
| GitAddCommit (message : jsstring) (ok : bool)
| GitPush (remote branch : jsstring) (ok : bool)
| PullsCreate (pr : PullRequest) (ok : bool)
| ProcessExit (code : Z).

(** The hosted repository: the branch its HEAD names and the tree at
    the tip of each branch ([None]: no such branch). *)
Record Remote : Type := {
  default_branch : jsstring;
  tip : jsstring -> option WorkingTree
}.

(** Everything outside the program. The collaborators that answer more
    than once (the model, the spawned command) answer from the history
    of events so far, newest first. *)
Record World : Type := {
  argv : list jsstring;                       (* process.argv.slice(2) *)
  GITHUB_OWNER : option jsstring;
  GITHUB_REPO : option jsstring;
  GITHUB_TOKEN : option jsstring;
  OPENAI_ASSISTANT_MODEL : option jsstring;
  os_tmpdir : jsstring;
  mkdtemp : jsstring -> option jsstring;
  date_now : N;
  remote_repo : Remote;
  clone_ok : bool;
  checkout_ok : bool;
  chat : list Event -> jsstring -> list Message -> option jsstring;
  spawnSync : list Event -> jsstring -> list jsstring -> jsstring ->
              jsstring -> option Z;
  commit_ok : bool;
  push_ok : bool;
  pulls_create_ok : bool
}.

(** *** A monad for the async functions: history, exceptions, exit *)

Inductive Outcome (A : Type) : Type :=
| Return (a : A)
| Throw (e : Error)
| Exited (code : Z).
Arguments Return {A} a.
Arguments Throw {A} e.
Arguments Exited {A} code.

Definition M (A : Type) : Type := list Event -> list Event * Outcome A.

Definition ret {A} (a : A) : M A := fun h => (h, Return a).

Definition bind {A B} (m : M A) (k : A -> M B) : M B :=
  fun h =>
    match m h with
    | (h', Return a) => k a h'
    | (h', Throw e) => (h', Throw e)
    | (h', Exited c) => (h', Exited c)
    end.

Definition throw {A} (e : Error) : M A := fun h => (h, Throw e).

(** [try { m } catch { handler }]; [process.exit] is not caught. *)
Definition try_catch {A} (m : M A) (handler : Error -> M A) : M A :=
  fun h =>
    match m h with
    | (h', Throw e) => handler e h'
    | r => r
    end.

Definition emit (e : Event) : M unit := fun h => (e :: h, Return tt).

Definition lift {A} (r : result A) : M A :=
  match r with
  | Ok a => ret a
  | Fail e => throw e
  end.

Declare Scope bot_scope.
Delimit Scope bot_scope with bot.
Notation "x <- m ;; k" := (bind m (fun x => k))
  (at level 61, m at next level, right associativity) : bot_scope.
Notation "m ;; k" := (bind m (fun _ => k))
  (at level 61, right associativity) : bot_scope.
Local Open Scope bot_scope.

(** *** The collaborators *)

Definition console_log (msg : jsstring) : M unit := emit (ConsoleLog msg).
Definition console_error (msg : jsstring) : M unit := emit (ConsoleError msg).

Definition process_exit {A} (code : Z) : M A :=
  fun h => (ProcessExit code :: h, Exited code).

Definition fs_mkdtemp (w : World) (prefix : jsstring) : M jsstring :=
  fun h =>
    match mkdtemp w prefix with
    | Some d => (Mkdtemp prefix (Some d) :: h, Return d)
    | None => (Mkdtemp prefix None :: h, Throw (IOError prefix))
    end.

(** [git.clone(remote, dir, options)]: without a branch option the
    clone checks out the branch the remote's HEAD names. *)
Definition git_clone (w : World) (remote dir : jsstring)
           (options : list jsstring) : M WorkingTree :=
  fun h =>
    match (if clone_ok w
           then tip (remote_repo w) (default_branch (remote_repo w))
           else None) with
    | Some t => (GitClone remote dir options true :: h, Return t)
    | None => (GitClone remote dir options false :: h,
               Throw (TransportError (lit "clone")))
    end.

Definition git_checkoutLocalBranch (w : World) (dir branch : jsstring)
  : M unit :=
  fun h =>
    if checkout_ok w
    then (GitCheckoutLocalBranch dir branch true :: h, Return tt)
    else (GitCheckoutLocalBranch dir branch false :: h,
          Throw (TransportError (lit "checkout"))).

Definition git_add_commit (w : World) (message : jsstring) : M unit :=
  fun h =>
    if commit_ok w
    then (GitAddCommit message true :: h, Return tt)
    else (GitAddCommit message false :: h,
          Throw (TransportError (lit "commit"))).

Definition git_push (w : World) (remote branch : jsstring) : M unit :=
  fun h =>
    if push_ok w
    then (GitPush remote branch true :: h, Return tt)
    else (GitPush remote branch false :: h,
          Throw (TransportError (lit "push"))).

Definition pulls_create (w : World) (pr : PullRequest) : M unit :=
  fun h =>
    if pulls_create_ok w
    then (PullsCreate pr true :: h, Return tt)
    else (PullsCreate pr false :: h,
          Throw (TransportError (lit "pulls.create"))).

(** [openai.chat.completions.create(...)] followed by
    [res.choices[0].message.content]. *)
Definition chat_completion (w : World) (model : jsstring) (temperature : Z)
           (messages : list Message) : M jsstring :=
  fun h =>
    match chat w h model messages with
    | Some c => (ChatCompletion model temperature messages (Some c) :: h,
                 Return c)
    | None => (ChatCompletion model temperature messages None :: h,
               Throw ModelError)
    end.

(** *** The program *)

(** A template literal prints [undefined] for a missing variable. *)
Definition tpl (o : option jsstring) : jsstring :=
  match o with
  | Some s => s
  | None => lit "undefined"
  end.

(** [a || b] on a string that may be undefined. *)
Definition or_default (o : option jsstring) (d : jsstring) : jsstring :=
  match o with
  | Some (c :: s) => c :: s
  | _ => d
  end.

Definition path_join (a b : jsstring) : jsstring := a ++ lit "/" ++ b.

(** [r.status === 0]; the status is [null] ([None]) when the child
    could not be run or was killed. *)
Definition status_ok (status : option Z) : bool :=
  match status with
  | Some 0%Z => true
  | _ => false
  end.

(** [run(cmd, args, cwd, input)] *)
Definition run (w : World) (cmd : jsstring) (args : list jsstring)
           (cwd input : jsstring) : M unit :=
  fun h =>
    let status := spawnSync w h cmd args cwd input in
    let h' := Spawn cmd args cwd input status :: h in
    if status_ok status
    then (h', Return tt)
    else (h', Throw (CommandFailed
                       ([10060%N] ++ lit " " ++ cmd ++ lit " " ++
                        join (lit " ") args ++ lit " failed"))).

Definition SYSTEM_PROMPT : jsstring := lit "
You are an expert software-engineering code-mod bot.
Return ONLY valid output produced by:
    git diff --no-prefix -U1000
(each file chunk MUST start with:
    diff --git a/<path> b/<path>
    --- a/<path>     or /dev/null
    +++ b/<path>)
If you create a new file, include:
    new file mode 100644
If no change is needed, output exactly __NO_CHANGES__ (no extra text).".

Definition NO_CHANGES : jsstring := lit "__NO_CHANGES__".

Definition DEFAULT_MODEL : jsstring := lit "gpt-4o-mini".

Definition task_message (task extraInstruction : jsstring) : Message :=
  {| role := lit "user";
     content := lit "TASK:" ++ [10%N] ++ task ++ [10%N] ++ extraInstruction |}.

(** [askForPatch(extraInstruction = "")] *)
Definition askForPatch (w : World) (task contextBlob : jsstring)
           (extraInstruction : jsstring) : M jsstring :=
  let messages :=
    [ {| role := lit "system"; content := trim SYSTEM_PROMPT |};
      {| role := lit "user";
         content := lit "Repository context:" ++ [10%N] ++ contextBlob |};
      task_message task extraInstruction ] in
  c <- chat_completion w (or_default (OPENAI_ASSISTANT_MODEL w) DEFAULT_MODEL)
                       0 messages ;;
  ret (trim c).

Definition RETRY_INSTRUCTION : jsstring :=
  lit "The previous patch failed to apply. " ++
  lit "Re-emit the ENTIRE diff (with headers) and ensure it applies.".

(** The notice before the re-request (a warning sign, then the text,
    then an ellipsis). *)
Definition PATCH_FAILED : jsstring :=
  [9888%N; 65039%N] ++
  lit "  Patch failed. Asking model to re-emit with full headers" ++ [8230%N].

(** [applyOrRetry(patch, isRetry = false)]: the body of the function
    read at [isRetry = true] (the [catch] block throws) and at
    [isRetry = false] (the [catch] block asks again and calls the
    function with [isRetry = true]). The measure says why the recursion
    ends: a call with [isRetry = true] makes no further call. *)
Equations applyOrRetry (w : World) (tmpDir task contextBlob : jsstring)
          (patch : jsstring) (isRetry : bool) : M jsstring
  by wf (if isRetry then 0 else 1)%nat lt :=
  applyOrRetry w tmpDir task contextBlob patch true :=
    try_catch
      (run w (lit "git") [lit "apply"; lit "-"] tmpDir patch ;; ret patch)
      (fun _ => throw PatchFailedTwice);
  applyOrRetry w tmpDir task contextBlob patch false :=
    try_catch
      (run w (lit "git") [lit "apply"; lit "-"] tmpDir patch ;; ret patch)
      (fun _ =>
         console_log PATCH_FAILED ;;
         fresh <- askForPatch w task contextBlob RETRY_INSTRUCTION ;;
         applyOrRetry w tmpDir task contextBlob fresh true).

(** The usage line: a cross mark, the text with its quoted example
    (code unit 34 is the double quote, 8230 the ellipsis). *)
Definition USAGE : jsstring :=
  [10060%N] ++ lit " Usage: node index.js " ++ [34%N] ++
  lit "Add /settings page " ++ [8230%N; 34%N].

(** The notice of the no-change exit (an information sign, the text
    with an en dash) and the closing line (a check mark, the branch, an
    arrow). *)
Definition NO_EDITS : jsstring :=
  [8505%N; 65039%N] ++ lit " Model reports no edits needed " ++ [8211%N] ++
  lit " exiting.".

Definition PR_OPENED (branch : jsstring) : jsstring :=
  [9989%N] ++ lit " Pull Request opened: " ++ branch ++ lit " " ++ [8594%N] ++
  lit " main".

Definition main (w : World) : M unit :=
  let task := join (lit " ") (argv w) in
  (match task with
   | [] => console_error USAGE ;; process_exit 1
   | _ => ret tt
   end) ;;
  tmpDir <- fs_mkdtemp w (path_join (os_tmpdir w) (lit "repo-")) ;;
  let remote :=
    lit "https://x-access-token:" ++ tpl (GITHUB_TOKEN w) ++
    lit "@github.com/" ++ tpl (GITHUB_OWNER w) ++ lit "/" ++
    tpl (GITHUB_REPO w) ++ lit ".git" in
  tree <- git_clone w remote tmpDir [lit "--depth"; lit "1"] ;;
  let branch := lit "ai-task-" ++ of_N (date_now w) in
  git_checkoutLocalBranch w tmpDir branch ;;
  contextBlob <- lift (sampleRepoContext tree MAX_FILES MAX_BYTES) ;;
  diff <- askForPatch w task contextBlob [] ;;
  if eqb diff NO_CHANGES
  then console_log NO_EDITS
  else
    diff <- applyOrRetry w tmpDir task contextBlob diff false ;;
    git_add_commit w (lit "AI: " ++ task) ;;
    git_push w (lit "origin") branch ;;
    pulls_create w {| owner := GITHUB_OWNER w;
                      repo := GITHUB_REPO w;
                      title := lit "AI: " ++ task;
                      head := branch;
                      base := lit "main";
                      body := lit "Automated patch generated by OpenAI" ++
                              [10%N; 10%N] ++ lit "Task:" ++ [10%N] ++ task |} ;;
    console_log (PR_OPENED branch).

(** [main().catch(err => { console.error(err); process.exit(1); })]:
    the events of the whole run, newest first, and the exit status. *)
Definition program (w : World) : list Event * Z :=
  match main w [] with
  | (h, Return _) => (h, 0%Z)
  | (h, Throw e) => (ProcessExit 1 :: ConsoleErrorObj e :: h, 1%Z)
  | (h, Exited c) => (h, c)
  end.

End Bot.

(* ================================================================== *)
(** ** Reading a history of events *)
(* ================================================================== *)

Module Trace.

Import Bot.

Fixpoint count (p : Event -> bool) (h : list Event) : nat :=
  match h with
  | [] => 0
  | e :: h' => (if p e then 1 else 0) + count p h'
  end.

(** An apply attempt: [git apply -] spawned with the patch on its
    standard input. *)
Definition is_apply (e : Event) : bool :=
  match e with
  | Spawn cmd [a1; a2] _ _ _ =>
      eqb cmd (lit "git") && eqb a1 (lit "apply") && eqb a2 (lit "-")
  | _ => false
  end.

Definition is_failed_apply (e : Event) : bool :=
  match e with
  | Spawn _ _ _ _ status => is_apply e && negb (status_ok status)
  | _ => false
  end.

Definition is_applied (e : Event) : bool :=
  match e with
  | Spawn _ _ _ _ status => is_apply e && status_ok status
  | _ => false
  end.

(** An apply attempt on the patch [patch]. *)
Definition is_apply_of (patch : jsstring) (e : Event) : bool :=
  match e with
  | Spawn _ _ _ input _ => is_apply e && eqb input patch
  | _ => false
  end.

Definition is_request (e : Event) : bool :=
  match e with
  | ChatCompletion _ _ _ _ => true
  | _ => false
  end.

(** The corrective re-request: a model call whose last message is the
    task followed by the instruction to re-emit the diff. *)
Definition is_rerequest (task : jsstring) (e : Event) : bool :=
  match e with
  | ChatCompletion _ _ [_; _; m] _ =>
      eqb (content m) (content (task_message task RETRY_INSTRUCTION))
  | _ => false
  end.

(** The first request: the last message is the task and nothing more. *)
Definition is_first_request (task : jsstring) (e : Event) : bool :=
  match e with
  | ChatCompletion _ _ [_; _; m] _ =>
      eqb (content m) (content (task_message task []))
  | _ => false
  end.

Definition is_commit (e : Event) : bool :=
  match e with GitAddCommit _ _ => true | _ => false end.

Definition is_push (e : Event) : bool :=
  match e with GitPush _ _ _ => true | _ => false end.

Definition is_pull_request (e : Event) : bool :=
  match e with PullsCreate _ _ => true | _ => false end.

(** A pull request that the host accepted. *)
Definition is_opened (e : Event) : bool :=
  match e with PullsCreate _ ok => ok | _ => false end.

(** The notice of the no-change path. *)
Definition is_noop_notice (e : Event) : bool :=
  match e with
  | ConsoleLog msg => eqb msg NO_EDITS
  | _ => false
  end.

Definition task_of (w : World) : jsstring := join (lit " ") (argv w).

End Trace.

(* ================================================================== *)
(** ** Small working trees and worlds to run the program on *)
(* ================================================================== *)

Module Examples.

Import Sampler.

(** Two files, discovered long name first: [a] of 2000 bytes and [bb]
    of 10 bytes. *)
Definition two_files : WorkingTree :=
  {| globby := [lit "bb"; lit "a"];
     stat := fun f => if eqb f (lit "a") then Some 2000%N
                      else if eqb f (lit "bb") then Some 10%N
                      else None;
     readFile := fun f => if eqb f (lit "a") then Some (lit "aaaa")
                          else if eqb f (lit "bb") then Some (lit "b")
                          else None |}.

(** The same candidates, with one more file on disk that the glob does
    not return. *)
Definition two_files_and_more : WorkingTree :=
  {| globby := [lit "bb"; lit "a"];
     stat := fun f => if eqb f (lit "a") then Some 2000%N
                      else if eqb f (lit "bb") then Some 10%N
                      else Some 7%N;
     readFile := fun f => if eqb f (lit "a") then Some (lit "aaaa")
                          else if eqb f (lit "bb") then Some (lit "b")
                          else Some (lit "ignored") |}.

(** A file of exactly 3000 bytes next to one of 10 bytes. *)
Definition big_and_small : WorkingTree :=
  {| globby := [lit "big.js"; lit "a"];
     stat := fun f => if eqb f (lit "big.js") then Some 3000%N else Some 10%N;
     readFile := fun _ => Some [] |}.

(** *** Worlds *)

Import Bot Trace.

Definition a_diff : jsstring :=
  lit "diff --git a/LICENSE b/LICENSE" ++ [10%N] ++
  lit "new file mode 100644" ++ [10%N] ++
  lit "--- /dev/null" ++ [10%N] ++ lit "+++ b/LICENSE" ++ [10%N].

(** A world where everything but the model and the spawned command is
    fixed and works: the task is [add a LICENSE file]. *)
Definition world_with (default : jsstring)
           (model : list Event -> option jsstring)
           (git_apply : list Event -> jsstring -> option Z) : World :=
  {| argv := [lit "add"; lit "a"; lit "LICENSE"; lit "file"];
     GITHUB_OWNER := Some (lit "octo");
     GITHUB_REPO := Some (lit "demo");
     GITHUB_TOKEN := Some (lit "t0ken");
     OPENAI_ASSISTANT_MODEL := None;
     os_tmpdir := lit "/tmp";
     mkdtemp := fun prefix => Some (prefix ++ lit "x1y2z3");
     date_now := 1700000000000%N;
     remote_repo := {| default_branch := default;
                       tip := fun _ => Some two_files |};
     clone_ok := true;
     checkout_ok := true;
     chat := fun h _ _ => model h;
     spawnSync := fun h _ _ _ input => git_apply h input;
     commit_ok := true;
     push_ok := true;
     pulls_create_ok := true |}.

(** The model answers with a diff that applies. *)
Definition happy : World :=
  world_with (lit "main") (fun _ => Some a_diff) (fun _ _ => Some 0%Z).

(** The same, on a repository whose default branch is [develop] (it
    has a branch [main] as well). *)
Definition develop_default : World :=
  world_with (lit "develop") (fun _ => Some a_diff) (fun _ _ => Some 0%Z).

(** The model answers with the sentinel and a line break. *)
Definition nothing_to_do : World :=
  world_with (lit "main") (fun _ => Some (NO_CHANGES ++ [10%N]))
             (fun _ _ => Some 0%Z).

(** The model answers with the sentinel and a remark; the text is fed
    to [git apply], which rejects it, as it does the second answer. *)
Definition chatty : World :=
  world_with (lit "main") (fun _ => Some (NO_CHANGES ++ lit " - all good"))
             (fun _ _ => Some 128%Z).

(** [git apply] rejects whatever it is given. *)
Definition never_applies : World :=
  world_with (lit "main") (fun _ => Some (lit "--- a/LICENSE"))
             (fun _ _ => Some 1%Z).

(** The model answers with a broken diff first and with the sentinel
    when asked again; [git apply] rejects both. *)
Definition sentinel_on_retry : World :=
  world_with (lit "main")
             (fun h => if (0 <? count is_request h)%nat
                       then Some NO_CHANGES
                       else Some (lit "--- a/LICENSE"))
             (fun _ _ => Some 128%Z).

(** The context string of [two_files] and the messages of the first
    request in these worlds. *)
Definition blob : jsstring :=
  match sampleRepoContext two_files MAX_FILES MAX_BYTES with
  | Ok b => b
  | Fail _ => []
  end.

Definition messages_with (extraInstruction : jsstring) : list Message :=
  [ {| role := lit "system"; content := trim SYSTEM_PROMPT |};
    {| role := lit "user";
       content := lit "Repository context:" ++ [10%N] ++ blob |};
    task_message (task_of happy) extraInstruction ].

End Examples.

(* ================================================================== *)
(** ** Properties as the specification words them *)
(* ================================================================== *)

Module Spec.

Import Sampler.

(** "Sampling stops the instant the budget would go to zero or below":
    after a candidate [f] that the remaining budget [b] cannot pay for,
    no later candidate [g] of the sorted list is admitted. *)
Definition stops_at_first_overdraw (t : WorkingTree) (maxFiles maxBytes : N)
  : Prop :=
  forall pre f post p b s picked,
    sort_by_length (globby t) = pre ++ f :: post ->
    sampleLoop t maxFiles pre [] (Z.of_N maxBytes) = Ok (p, b) ->
    stat t f = Some s ->
    (b - Z.of_N s <= 0)%Z ->
    pickFiles t maxFiles maxBytes = Ok picked ->
    forall g, In g post -> ~ In g picked.

(** "The byte total is always strictly less than the budget." *)
Definition total_strictly_below (t : WorkingTree) (maxFiles maxBytes : N)
  : Prop :=
  forall picked,
    pickFiles t maxFiles maxBytes = Ok picked ->
    (total_bytes t picked < Z.of_N maxBytes)%Z.

Import Bot Trace.

(** "One pull request targeting the default branch": on a run that
    ends well after a patch applied, every pull request asked for has
    the repository's default branch as its base. *)
Definition pr_targets_default_branch (w : World) : Prop :=
  snd (program w) = 0%Z ->
  (1 <= count is_applied (fst (program w)))%nat ->
  forall pr ok,
    In (PullsCreate pr ok) (fst (program w)) ->
    base pr = default_branch (remote_repo w).

End Spec.

(* ================================================================== *)
(** ** Further vocabulary: order of the picks, steps of a run *)
(* ================================================================== *)

Module Walk.

Import Sampler Bot Trace.

(** [kept_from l' l]: [l'] is [l] with some elements left out, the
    others in the order they have in [l]. *)
Inductive kept_from {A : Type} : list A -> list A -> Prop :=
| kept_none : kept_from [] []
| kept_drop (x : A) (l' l : list A) : kept_from l' l -> kept_from l' (x :: l)
| kept_keep (x : A) (l' l : list A) : kept_from l' l -> kept_from (x :: l') (x :: l).

(** The branch of a run: [`ai-task-${Date.now()}`]. *)
Definition branch_of (w : World) : jsstring :=
  lit "ai-task-" ++ of_N (date_now w).

(** The message that carries the sampled context. *)
Definition context_message (contextBlob : jsstring) : Message :=
  {| role := lit "user";
     content := lit "Repository context:" ++ [10%N] ++ contextBlob |}.

Definition system_message : Message :=
  {| role := lit "system"; content := trim SYSTEM_PROMPT |}.

(** A commit that was made, a push that went through, a model call
    that failed. *)
Definition is_committed (e : Event) : bool :=
  match e with GitAddCommit _ ok => ok | _ => false end.

Definition is_pushed (e : Event) : bool :=
  match e with GitPush _ _ ok => ok | _ => false end.

Definition is_failed_request (e : Event) : bool :=
  match e with ChatCompletion _ _ _ None => true | _ => false end.

(** *** More trees and worlds *)

(** Three candidates; [gone.js] was deleted between the glob and the
    [stat] call. *)
Definition one_gone : WorkingTree :=
  {| globby := [lit "gone.js"; lit "a"; lit "bb"];
     stat := fun f => if eqb f (lit "gone.js") then None else Some 10%N;
     readFile := fun f => if eqb f (lit "gone.js") then None else Some (lit "x") |}.

(** Two candidates; [bb] can be sized but not read. *)
Definition one_unreadable : WorkingTree :=
  {| globby := [lit "a"; lit "bb"];
     stat := fun _ => Some 10%N;
     readFile := fun f => if eqb f (lit "bb") then None else Some (lit "x") |}.

(** The model call fails. *)
Definition model_down : World :=
  Examples.world_with (lit "main") (fun _ => None) (fun _ _ => Some 0%Z).

(** The first patch does not apply, the second does. *)
Definition second_time_lucky : World :=
  Examples.world_with (lit "main") (fun _ => Some Examples.a_diff)
    (fun h _ => if (0 <? count is_apply h)%nat then Some 0%Z else Some 1%Z).

(** No task on the command line. *)
Definition no_task : World :=
  {| argv := [];
     GITHUB_OWNER := None; GITHUB_REPO := None; GITHUB_TOKEN := None;
     OPENAI_ASSISTANT_MODEL := None;
     os_tmpdir := lit "/tmp";
     mkdtemp := fun _ => None;
     date_now := 0%N;
     remote_repo := {| default_branch := lit "main"; tip := fun _ => None |};
     clone_ok := false; checkout_ok := false;
     chat := fun _ _ _ => None;
     spawnSync := fun _ _ _ _ _ => None;
     commit_ok := false; push_ok := false; pulls_create_ok := false |}.

(** The checkout has a file that cannot be sized. *)
Definition file_gone : World :=
  {| argv := [lit "fix"];
     GITHUB_OWNER := Some (lit "octo"); GITHUB_REPO := Some (lit "demo");
     GITHUB_TOKEN := Some (lit "t0ken");
     OPENAI_ASSISTANT_MODEL := Some (lit "gpt-4o");
     os_tmpdir := lit "/tmp";
     mkdtemp := fun prefix => Some (prefix ++ lit "x1y2z3");
     date_now := 1700000000000%N;
     remote_repo := {| default_branch := lit "main";
                       tip := fun _ => Some one_gone |};
     clone_ok := true; checkout_ok := true;
     chat := fun _ _ _ => Some Examples.a_diff;
     spawnSync := fun _ _ _ _ _ => Some 0%Z;
     commit_ok := true; push_ok := true; pulls_create_ok := true |}.

End Walk.

(* ================================================================== *)
(** * Facts about strings *)
(* ================================================================== *)

Module JSFacts.

Lemma eqb_spec (a b : jsstring) : reflect (a = b) (eqb a b).
Proof.
  revert b; induction a as [|x a IH]; intros [|y b]; simpl;
    try (constructor; congruence).
  destruct (N.eqb_spec x y) as [->|Hne]; simpl.
  - destruct (IH b) as [->|Hne]; constructor; congruence.
  - constructor; congruence.
Qed.

Lemma eqb_refl (a : jsstring) : eqb a a = true.
Proof. destruct (eqb_spec a a); congruence. Qed.

Lemma eqb_eq (a b : jsstring) : eqb a b = true <-> a = b.
Proof. destruct (eqb_spec a b); split; congruence. Qed.

Lemma eqb_neq (a b : jsstring) : eqb a b = false <-> a <> b.
Proof. destruct (eqb_spec a b); split; congruence. Qed.

(** *** [trim] takes white space off both ends and nothing else *)

Lemma trimStart_split s :
  exists pre, blank pre /\ s = pre ++ trimStart s.
Proof.
  induction s as [|c s [pre [Hpre Hs]]]; simpl.
  - now exists [].
  - destruct (is_space c) eqn:Hc.
    + exists (c :: pre). split.
      * unfold blank; simpl. now rewrite Hc.
      * simpl. now rewrite <- Hs.
    + now exists [].
Qed.

Lemma trimStart_blank pre s : blank pre -> trimStart (pre ++ s) = trimStart s.
Proof.
  unfold blank. induction pre as [|c pre IH]; simpl; [reflexivity|].
  intros H. apply andb_true_iff in H as [Hc Hpre]. rewrite Hc. now apply IH.
Qed.

Lemma blank_rev s : blank s -> blank (rev s).
Proof.
  unfold blank. rewrite !forallb_forall. intros H c Hc.
  apply H. now apply in_rev.
Qed.

Lemma trim_split s :
  exists pre post, blank pre /\ blank post /\ s = pre ++ trim s ++ post.
Proof.
  destruct (trimStart_split s) as [pre [Hpre Hs]].
  destruct (trimStart_split (rev (trimStart s))) as [post [Hpost Hr]].
  exists pre, (rev post). split; [exact Hpre|]. split; [now apply blank_rev|].
  unfold trim, trimEnd. rewrite <- rev_app_distr, <- Hr, rev_involutive.
  exact Hs.
Qed.

(** A text that starts and ends with something other than white space
    comes back from [trim] unchanged, whatever white space is around it. *)
Lemma trim_padded pre post c1 c2 mid :
  blank pre -> blank post ->
  is_space c1 = false -> is_space c2 = false ->
  trim (pre ++ (c1 :: mid ++ [c2]) ++ post) = c1 :: mid ++ [c2].
Proof.
  intros Hpre Hpost H1 H2.
  unfold trim, trimEnd.
  rewrite trimStart_blank by exact Hpre.
  simpl. rewrite H1.
  change (c1 :: (mid ++ [c2]) ++ post) with ((c1 :: mid ++ [c2]) ++ post).
  rewrite rev_app_distr, trimStart_blank by now apply blank_rev.
  change (c1 :: mid ++ [c2]) with ((c1 :: mid) ++ [c2]).
  rewrite rev_app_distr. simpl. rewrite H2. simpl.
  now rewrite rev_app_distr, rev_involutive.
Qed.

End JSFacts.

(* ================================================================== *)
(** * The sampler *)
(* ================================================================== *)

Module SamplerFacts.

Import Sampler.

(** *** The sort is the stable sort by length *)

Lemma insert_by_length_perm x l : Permutation (x :: l) (insert_by_length x l).
Proof.
  induction l as [|y l IH]; simpl; [reflexivity|].
  destruct (length x <=? length y)%nat; [reflexivity|].
  rewrite perm_swap. now apply perm_skip.
Qed.

Lemma sort_by_length_perm l : Permutation l (sort_by_length l).
Proof.
  induction l as [|x l IH]; simpl; [constructor|].
  rewrite <- insert_by_length_perm. now apply perm_skip.
Qed.

Lemma sort_by_length_In l f : In f (sort_by_length l) <-> In f l.
Proof.
  split; apply Permutation_in;
    [symmetry|]; apply sort_by_length_perm.
Qed.

Lemma insert_by_length_sorted x l :
  StronglySorted by_length l -> StronglySorted by_length (insert_by_length x l).
Proof.
  induction 1 as [|y l Hs IH Hall]; simpl.
  - repeat constructor.
  - destruct (Nat.leb_spec (length x) (length y)) as [Hle|Hgt].
    + constructor; [now constructor|].
      constructor; [exact Hle|].
      eapply Forall_impl; [|exact Hall].
      unfold by_length; intros; lia.
    + constructor; [exact IH|].
      rewrite <- insert_by_length_perm.
      constructor; [unfold by_length; lia | exact Hall].
Qed.

Lemma sort_by_length_sorted l : StronglySorted by_length (sort_by_length l).
Proof.
  induction l as [|x l IH]; simpl; [constructor|].
  now apply insert_by_length_sorted.
Qed.

(** Stability: paths of one length keep their discovery order. *)
Lemma insert_by_length_stable k x l :
  StronglySorted by_length l ->
  of_length k (insert_by_length x l) = of_length k (x :: l).
Proof.
  unfold of_length.
  induction 1 as [|y l Hs IH Hall]; simpl; [reflexivity|].
  destruct (Nat.leb_spec (length x) (length y)) as [Hle|Hgt];
    [reflexivity|].
  simpl. rewrite IH. simpl.
  destruct (Nat.eqb_spec (length x) k) as [Hx|Hx];
    destruct (Nat.eqb_spec (length y) k) as [Hy|Hy]; try reflexivity.
  lia.
Qed.

Lemma sort_by_length_stable k l :
  of_length k (sort_by_length l) = of_length k l.
Proof.
  induction l as [|x l IH]; simpl; [reflexivity|].
  rewrite insert_by_length_stable by apply sort_by_length_sorted.
  unfold of_length in *; simpl. now rewrite IH.
Qed.

(** *** The loop *)

Lemma total_bytes_app t a b :
  total_bytes t (a ++ b) = (total_bytes t a + total_bytes t b)%Z.
Proof.
  induction a as [|x a IH]; simpl; [reflexivity|].
  rewrite IH. lia.
Qed.

(** Once the count has reached the cap the loop admits nothing more. *)
Lemma sampleLoop_cap t maxFiles cands picked budget :
  (maxFiles <= N.of_nat (length picked))%N ->
  sampleLoop t maxFiles cands picked budget = Ok (picked, budget).
Proof.
  intros Hcap. destruct cands as [|f rest]; simpl; [reflexivity|].
  apply N.leb_le in Hcap. now rewrite Hcap.
Qed.

(** A candidate the admission test refuses leaves both variables as
    they were, and the walk goes on with the next candidate. *)
Lemma sampleLoop_skip t maxFiles f rest picked budget s :
  stat t f = Some s ->
  (FILE_CAP <= s)%N \/ (budget - Z.of_N s <= 0)%Z ->
  sampleLoop t maxFiles (f :: rest) picked budget =
  sampleLoop t maxFiles rest picked budget.
Proof.
  intros Hs Hno. simpl.
  destruct (N.leb_spec maxFiles (N.of_nat (length picked))) as [Hcap|Hcap].
  - symmetry. now apply sampleLoop_cap.
  - rewrite Hs.
    replace ((s <? FILE_CAP)%N && (0 <? budget - Z.of_N s)%Z) with false;
      [reflexivity|].
    symmetry. apply andb_false_iff.
    destruct Hno as [H|H]; [left; apply N.ltb_ge | right; apply Z.ltb_ge];
      exact H.
Qed.

(** Walking [pre ++ post] is walking [pre], then [post] from the state
    reached; a [break] inside [pre] breaks again at once. *)
Lemma sampleLoop_app t maxFiles pre post picked budget :
  sampleLoop t maxFiles (pre ++ post) picked budget =
  match sampleLoop t maxFiles pre picked budget with
  | Ok (p, b) => sampleLoop t maxFiles post p b
  | Fail e => Fail e
  end.
Proof.
  revert picked budget.
  induction pre as [|f pre IH]; intros picked budget; simpl; [reflexivity|].
  destruct (N.leb_spec maxFiles (N.of_nat (length picked))) as [Hcap|Hcap].
  - symmetry. now apply sampleLoop_cap.
  - destruct (stat t f) as [s|]; [|reflexivity].
    destruct ((s <? FILE_CAP)%N && (0 <? budget - Z.of_N s)%Z); apply IH.
Qed.

(** The loop keeps [loop_post]. *)
Lemma sampleLoop_post t maxFiles cands :
  forall picked budget picked' budget',
    sampleLoop t maxFiles cands picked budget = Ok (picked', budget') ->
    loop_post t maxFiles cands picked budget picked' budget'.
Proof.
  induction cands as [|f rest IH]; intros picked budget picked' budget' Hrun.
  - simpl in Hrun. injection Hrun as <- <-.
    exists []; simpl; try tauto; try lia.
    now rewrite app_nil_r.
  - simpl in Hrun.
    destruct (N.leb_spec maxFiles (N.of_nat (length picked))) as [Hcap|Hcap].
    + injection Hrun as <- <-.
      exists []; simpl; try tauto; try lia.
      now rewrite app_nil_r.
    + destruct (stat t f) as [s|] eqn:Hs; [|discriminate].
      destruct ((s <? FILE_CAP)%N && (0 <? budget - Z.of_N s)%Z) eqn:Htest.
      * apply andb_true_iff in Htest as [Hsz Hbud].
        apply N.ltb_lt in Hsz. apply Z.ltb_lt in Hbud.
        destruct (IH _ _ _ _ Hrun) as [new Hp Hfrom Hb Hpos Hcnt].
        exists (f :: new).
        -- rewrite Hp, <- app_assoc. reflexivity.
        -- intros g [<-|Hg].
           ++ split; [now left|]. now exists s.
           ++ destruct (Hfrom g Hg) as [Hin Hst]. split; [now right|exact Hst].
        -- rewrite Hb. simpl. unfold size_of at 1. rewrite Hs. lia.
        -- intros _. destruct new as [|g new'].
           ++ rewrite Hb. simpl. lia.
           ++ apply Hpos. discriminate.
        -- intros _. apply Hcnt.
           rewrite length_app. simpl. lia.
      * destruct (IH _ _ _ _ Hrun) as [new Hp Hfrom Hb Hpos Hcnt].
        exists new; auto.
        intros g Hg. destruct (Hfrom g Hg) as [Hin Hst].
        split; [now right|exact Hst].
Qed.

Lemma pickFiles_inv t maxFiles maxBytes picked :
  pickFiles t maxFiles maxBytes = Ok picked ->
  exists budget',
    sampleLoop t maxFiles (sort_by_length (globby t)) [] (Z.of_N maxBytes)
    = Ok (picked, budget').
Proof.
  unfold pickFiles.
  destruct (sampleLoop _ _ _ _ _) as [[p b]|e]; [|discriminate].
  intros [= <-]. now exists b.
Qed.

(** *** The sampler reads the candidates and nothing else *)

Lemma sampleLoop_ext t1 t2 maxFiles cands :
  (forall f, In f cands -> stat t1 f = stat t2 f) ->
  forall picked budget,
    sampleLoop t1 maxFiles cands picked budget =
    sampleLoop t2 maxFiles cands picked budget.
Proof.
  induction cands as [|f rest IH]; intros Hsame picked budget; simpl;
    [reflexivity|].
  rewrite <- (Hsame f) by now left.
  destruct (maxFiles <=? N.of_nat (length picked))%N; [reflexivity|].
  destruct (stat t1 f) as [s|]; [|reflexivity].
  destruct ((s <? FILE_CAP)%N && (0 <? budget - Z.of_N s)%Z);
    apply IH; intros g Hg; apply Hsame; now right.
Qed.

Lemma readParts_ext t1 t2 picked :
  (forall f, In f picked -> readFile t1 f = readFile t2 f) ->
  readParts t1 picked = readParts t2 picked.
Proof.
  induction picked as [|f rest IH]; intros Hsame; simpl; [reflexivity|].
  rewrite <- (Hsame f) by now left.
  destruct (readFile t1 f) as [code|]; [|reflexivity].
  rewrite IH; [reflexivity|].
  intros g Hg. apply Hsame. now right.
Qed.

(** The bundle is the files picked, each read and put under its
    [FILE:] line, joined by the end-of-file marker. *)
Lemma sampleRepoContext_picks t maxFiles maxBytes bundle :
  sampleRepoContext t maxFiles maxBytes = Ok bundle ->
  exists picked parts,
    pickFiles t maxFiles maxBytes = Ok picked /\
    readParts t picked = Ok parts /\
    length parts = length picked /\
    bundle = join END_FILE parts.
Proof.
  unfold sampleRepoContext.
  destruct (pickFiles t maxFiles maxBytes) as [picked|e]; [|discriminate].
  destruct (readParts t picked) as [parts|e] eqn:Hread; [|discriminate].
  intros [= <-]. exists picked, parts.
  repeat split; try reflexivity; try exact Hread.
  clear - Hread. revert parts Hread.
  induction picked as [|f rest IH]; simpl; intros parts.
  - now intros [= <-].
  - destruct (readFile t f) as [code|]; [|discriminate].
    destruct (readParts t rest) as [ps|e] eqn:Hrest; [|discriminate].
    intros [= <-]. simpl. f_equal. now apply IH.
Qed.

Lemma pickFiles_subset t maxFiles maxBytes picked f :
  pickFiles t maxFiles maxBytes = Ok picked ->
  In f picked -> In f (globby t).
Proof.
  intros Hpick Hin. apply pickFiles_inv in Hpick as [b Hrun].
  apply sampleLoop_post in Hrun as [new Hp Hfrom _ _ _].
  simpl in Hp. subst picked.
  apply sort_by_length_In. now apply Hfrom.
Qed.

End SamplerFacts.

(* ================================================================== *)
(** * Properties of the sampler *)
(* ================================================================== *)

Module SamplerClaims.

Import Sampler SamplerFacts Examples.

(** C3. For every working tree, file-count limit and byte budget, the
    files the sampler picks for the bundle are at most [maxFiles] many
    and their sizes add up to at most [maxBytes]. *)
Theorem bundle_within_limits (t : WorkingTree) (maxFiles maxBytes : N)
        (picked : list jsstring) :
  pickFiles t maxFiles maxBytes = Ok picked ->
  (total_bytes t picked <= Z.of_N maxBytes)%Z /\
  (N.of_nat (length picked) <= maxFiles)%N.
Proof.
  intros Hpick. apply pickFiles_inv in Hpick as [b Hrun].
  apply sampleLoop_post in Hrun as [new Hp _ Hb Hpos Hcnt].
  simpl in Hp. subst picked. split.
  - destruct new as [|f new]; [simpl; lia|].
    assert (0 < b)%Z by (apply Hpos; discriminate). lia.
  - apply Hcnt. simpl. lia.
Qed.

Lemma bundle_within_limits_witness :
  pickFiles two_files 25 100 = Ok [lit "bb"] /\
  (total_bytes two_files [lit "bb"] <= 100)%Z /\
  (N.of_nat (length [lit "bb"]) <= 25)%N.
Proof.
  split; [reflexivity|].
  apply (@bundle_within_limits two_files 25 100 [lit "bb"]). reflexivity.
Defined.

(** C8. A candidate whose size is 3000 bytes or more is never among the
    files the sampler picks, whatever budget remains. *)
Theorem big_file_never_picked (t : WorkingTree) (maxFiles maxBytes : N)
        (picked : list jsstring) (f : jsstring) (s : N) :
  pickFiles t maxFiles maxBytes = Ok picked ->
  stat t f = Some s ->
  (FILE_CAP <= s)%N ->
  ~ In f picked.
Proof.
  intros Hpick Hs Hbig Hin. apply pickFiles_inv in Hpick as [b Hrun].
  apply sampleLoop_post in Hrun as [new Hp Hfrom _ _ _].
  simpl in Hp. subst picked.
  destruct (Hfrom f Hin) as [_ [s' [Hs' Hlt]]].
  rewrite Hs in Hs'. injection Hs' as <-. lia.
Qed.

Lemma big_file_never_picked_witness :
  pickFiles big_and_small 25 40000 = Ok [lit "a"] /\
  ~ In (lit "big.js") [lit "a"].
Proof.
  split; [reflexivity|].
  apply (@big_file_never_picked big_and_small 25 40000 [lit "a"]
                                (lit "big.js") 3000);
    [reflexivity | reflexivity | unfold FILE_CAP; lia].
Defined.

(** C1, as the specification words it, fails: with a budget of 100
    bytes the candidate [a] (2000 bytes) cannot be paid for, and [bb],
    which comes after it in the sorted list, is picked all the same. *)
Lemma later_file_still_picked :
  ~ Spec.stops_at_first_overdraw two_files 25 100.
Proof.
  intros Hstop.
  apply (Hstop [] (lit "a") [lit "bb"] [] 100%Z 2000%N [lit "bb"]
               eq_refl eq_refl eq_refl) with (g := lit "bb").
  - lia.
  - reflexivity.
  - now left.
  - now left.
Qed.

(** C1, amended. Let the sorted candidates be [pre ++ f :: post] and let
    the walk over [pre] leave [p] picked and [b] bytes of budget. If the
    count has reached the cap, the walk stops: the files picked at the
    end are [p]. If admitting [f] would drive the budget to zero or
    below, [f] is passed over with [p] and [b] unchanged, and the walk
    goes on: the files picked at the end are those the loop picks from
    [p] and [b] on [post]. *)
Theorem cap_stops_overdraw_skips (t : WorkingTree) (maxFiles maxBytes : N)
        (pre post p picked : list jsstring) (f : jsstring) (b : Z) :
  sort_by_length (globby t) = pre ++ f :: post ->
  sampleLoop t maxFiles pre [] (Z.of_N maxBytes) = Ok (p, b) ->
  pickFiles t maxFiles maxBytes = Ok picked ->
  ((maxFiles <= N.of_nat (length p))%N -> picked = p) /\
  (forall s, stat t f = Some s -> (b - Z.of_N s <= 0)%Z ->
             exists b', sampleLoop t maxFiles post p b = Ok (picked, b')).
Proof.
  intros Hsorted Hpre Hpick.
  apply pickFiles_inv in Hpick as [b' Hrun].
  rewrite Hsorted, sampleLoop_app, Hpre in Hrun.
  split.
  - intros Hcap. rewrite sampleLoop_cap in Hrun by exact Hcap.
    now injection Hrun as <- _.
  - intros s Hs Hover. exists b'.
    rewrite <- Hrun. symmetry.
    eapply sampleLoop_skip; [exact Hs | now right].
Qed.

Lemma cap_stops_overdraw_skips_witness :
  sort_by_length (globby two_files) = [] ++ lit "a" :: [lit "bb"] /\
  pickFiles two_files 25 100 = Ok [lit "bb"] /\
  ((25 <= N.of_nat (length (@nil jsstring)))%N -> [lit "bb"] = []) /\
  (forall s, stat two_files (lit "a") = Some s -> (100 - Z.of_N s <= 0)%Z ->
             exists b', sampleLoop two_files 25 [lit "bb"] [] 100
                        = Ok ([lit "bb"], b')).
Proof.
  split; [reflexivity|]. split; [reflexivity|].
  apply (@cap_stops_overdraw_skips two_files 25 100 [] [lit "bb"] []
                                   [lit "bb"] (lit "a") 100%Z);
    reflexivity.
Defined.

(** C10, as the specification words it, fails for a budget of zero:
    nothing is picked and the byte total, 0, equals the budget. *)
Lemma zero_budget_total_equal :
  ~ Spec.total_strictly_below two_files 25 0.
Proof.
  intros Hbelow.
  specialize (Hbelow [] eq_refl). simpl in Hbelow. lia.
Qed.

(** C10, amended. The test on the budget is strict: a candidate whose
    size equals the remaining budget is passed over, and whenever the
    configured budget is positive the byte total of the files picked is
    strictly below it. *)
Theorem exact_fit_rejected (t : WorkingTree) (maxFiles maxBytes : N)
        (picked rest p : list jsstring) (f : jsstring) (b : Z) (s : N) :
  (0 < maxBytes)%N ->
  pickFiles t maxFiles maxBytes = Ok picked ->
  stat t f = Some s ->
  Z.of_N s = b ->
  sampleLoop t maxFiles (f :: rest) p b = sampleLoop t maxFiles rest p b /\
  (total_bytes t picked < Z.of_N maxBytes)%Z.
Proof.
  intros Hpos Hpick Hs Hfit. split.
  - eapply sampleLoop_skip; [exact Hs | right; lia].
  - apply pickFiles_inv in Hpick as [b' Hrun].
    apply sampleLoop_post in Hrun as [new Hp _ Hb Hgt _].
    simpl in Hp. subst picked.
    destruct new as [|g new]; [simpl; lia|].
    assert (0 < b')%Z by (apply Hgt; discriminate). lia.
Qed.

Lemma exact_fit_rejected_witness :
  pickFiles two_files 25 10 = Ok [] /\
  sampleLoop two_files 25 [lit "bb"] [] 10 = sampleLoop two_files 25 [] [] 10 /\
  (total_bytes two_files [] < 10)%Z.
Proof.
  split; [reflexivity|].
  apply (@exact_fit_rejected two_files 25 10 [] [] [] (lit "bb") 10%Z 10%N);
    [lia | reflexivity | reflexivity | reflexivity].
Defined.

(** C7. Sampling is a function of the candidate list and of the sizes
    and contents of the candidates: two working trees that the glob,
    [fs.stat] and [fs.readFile] answer alike on produce the same
    ContextBundle string (or fail alike), code unit for code unit. *)
Theorem sampling_deterministic (t1 t2 : WorkingTree) (maxFiles maxBytes : N) :
  globby t1 = globby t2 ->
  (forall f, In f (globby t1) ->
             stat t1 f = stat t2 f /\ readFile t1 f = readFile t2 f) ->
  sampleRepoContext t1 maxFiles maxBytes = sampleRepoContext t2 maxFiles maxBytes.
Proof.
  intros Hglob Hsame.
  assert (Hpick : pickFiles t1 maxFiles maxBytes = pickFiles t2 maxFiles maxBytes).
  { unfold pickFiles. rewrite <- Hglob.
    rewrite (@sampleLoop_ext t1 t2); [reflexivity|].
    intros f Hf. apply Hsame. now apply sort_by_length_In. }
  unfold sampleRepoContext. rewrite <- Hpick.
  destruct (pickFiles t1 maxFiles maxBytes) as [picked|e] eqn:Hp; [|reflexivity].
  rewrite (@readParts_ext t1 t2); [reflexivity|].
  intros f Hf. apply Hsame. eapply pickFiles_subset; eassumption.
Qed.

Lemma sampling_deterministic_witness :
  sampleRepoContext two_files 25 40000 =
  sampleRepoContext two_files_and_more 25 40000.
Proof.
  apply (@sampling_deterministic two_files two_files_and_more 25 40000).
  - reflexivity.
  - simpl. intros f [<-|[<-|[]]]; split; reflexivity.
Defined.

End SamplerClaims.

(* ================================================================== *)
(** * The pipeline *)
(* ================================================================== *)

Module BotFacts.

Import JSFacts Sampler Bot Trace.

Lemma is_apply_git cwd input status :
  is_apply (Spawn (lit "git") [lit "apply"; lit "-"] cwd input status) = true.
Proof. unfold is_apply. now rewrite !eqb_refl. Qed.

Lemma retry_instruction_nonempty : RETRY_INSTRUCTION <> [].
Proof. discriminate. Qed.

(** The first request and the corrective one differ in their last
    message, whatever the task. *)
Lemma task_message_neq task :
  content (task_message task []) <>
  content (task_message task RETRY_INSTRUCTION).
Proof.
  unfold task_message; cbn [content]. intros H.
  repeat apply app_inv_head in H.
  symmetry in H. now apply retry_instruction_nonempty in H.
Qed.

Lemma is_rerequest_retry task model temperature m1 m2 reply :
  is_rerequest task
    (ChatCompletion model temperature
                    [m1; m2; task_message task RETRY_INSTRUCTION] reply) = true.
Proof. apply eqb_refl. Qed.

Lemma is_rerequest_first task model temperature m1 m2 reply :
  is_rerequest task
    (ChatCompletion model temperature [m1; m2; task_message task []] reply)
  = false.
Proof. apply eqb_neq, task_message_neq. Qed.

Lemma is_first_request_first task model temperature m1 m2 reply :
  is_first_request task
    (ChatCompletion model temperature [m1; m2; task_message task []] reply)
  = true.
Proof. apply eqb_refl. Qed.

Lemma is_first_request_retry task model temperature m1 m2 reply :
  is_first_request task
    (ChatCompletion model temperature
                    [m1; m2; task_message task RETRY_INSTRUCTION] reply) = false.
Proof.
  apply eqb_neq. intros H. symmetry in H. now apply task_message_neq in H.
Qed.

Lemma patch_failed_is_not_noop :
  is_noop_notice (ConsoleLog PATCH_FAILED) = false.
Proof. reflexivity. Qed.

Lemma opened_is_not_noop branch :
  is_noop_notice (ConsoleLog (PR_OPENED branch)) = false.
Proof. reflexivity. Qed.

(** *** Running [program] on an arbitrary world

    [exec] unfolds the program and splits on the answer of each
    collaborator in the order the program asks; it leaves one goal for
    each way a run can go, with the history written out. *)

Ltac unfold_ops :=
  cbv beta iota zeta delta
    [program main bind try_catch run console_error console_log process_exit
     emit ret throw lift fs_mkdtemp git_clone git_checkoutLocalBranch
     git_add_commit git_push pulls_create askForPatch chat_completion].

Ltac case_step :=
  first
    [ rewrite applyOrRetry_equation_2
    | rewrite applyOrRetry_equation_1
    | lazymatch goal with
      | |- context [match join ?s ?a with _ => _ end] =>
          destruct (join s a) eqn:?
      | |- context [mkdtemp ?w ?p] => destruct (mkdtemp w p) eqn:?
      | |- context [if clone_ok ?w then _ else _] =>
          destruct (clone_ok w) eqn:?
      | |- context [match tip ?r ?b with _ => _ end] =>
          destruct (tip r b) eqn:?
      | |- context [if checkout_ok ?w then _ else _] =>
          destruct (checkout_ok w) eqn:?
      | |- context [match sampleRepoContext ?t ?f ?b with _ => _ end] =>
          destruct (sampleRepoContext t f b) eqn:?
      | |- context [match chat ?w ?h ?m ?msgs with _ => _ end] =>
          destruct (chat w h m msgs) eqn:?
      | |- context [if eqb ?d NO_CHANGES then _ else _] =>
          destruct (eqb d NO_CHANGES) eqn:?
      | |- context [spawnSync ?w ?h ?c ?a ?d ?i] =>
          let st := fresh "status" in
          set (st := spawnSync w h c a d i); clearbody st;
          destruct (status_ok st) eqn:?
      | |- context [if commit_ok ?w then _ else _] =>
          destruct (commit_ok w) eqn:?
      | |- context [if push_ok ?w then _ else _] =>
          destruct (push_ok w) eqn:?
      | |- context [if pulls_create_ok ?w then _ else _] =>
          destruct (pulls_create_ok w) eqn:?
      end ].

Ltac exec :=
  unfold task_of;
  match goal with
  | |- context [program ?w] =>
      let p := fresh "p" in
      let Hp := fresh "Hp" in
      remember (program w) as p eqn:Hp; revert Hp
  end;
  unfold_ops; repeat (case_step; unfold_ops); intros ->.

(** [tidy] evaluates the predicates of [Trace] on a written-out history. *)
Ltac tidy :=
  cbn [fst snd count] in *;
  cbv beta iota delta [is_failed_apply is_applied is_apply_of] in *;
  rewrite ?is_apply_git, ?is_rerequest_retry, ?is_rerequest_first,
    ?is_first_request_first, ?is_first_request_retry in *;
  cbn [is_apply is_request is_rerequest is_first_request
       is_commit is_push is_pull_request is_opened
       negb andb Nat.add] in *;
  rewrite ?patch_failed_is_not_noop, ?opened_is_not_noop in *;
  cbn [is_noop_notice] in *;
  repeat match goal with
         | H : status_ok ?s = _ |- _ => rewrite ?H in *; clear H
         end;
  cbn [negb andb Nat.add] in *.

(** The answers that [trim] turns into the sentinel are the sentinel
    itself with white space around it, and no others. *)
Lemma trim_is_sentinel (r : jsstring) :
  trim r = NO_CHANGES <->
  exists pre post, blank pre /\ blank post /\ r = pre ++ NO_CHANGES ++ post.
Proof.
  split.
  - intros H. destruct (trim_split r) as [pre [post [Hpre [Hpost Hr]]]].
    exists pre, post. now rewrite <- H.
  - intros [pre [post [Hpre [Hpost ->]]]].
    apply (@trim_padded pre post 95%N 95%N (lit "_NO_CHANGES_"));
      auto.
Qed.

(** Which event of a written-out history a hypothesis [In e h] means. *)
Ltac in_cases H :=
  cbn [In] in H;
  repeat (destruct H as [H|H]; [try discriminate H|]);
  try contradiction H.

End BotFacts.

(* ================================================================== *)
(** * Properties of the pipeline *)
(* ================================================================== *)

Module BotClaims.

Import JSFacts Sampler Bot Trace BotFacts.

(** C2. Whatever the collaborators answer, a run makes at most two
    apply attempts and at most one corrective re-request (so at most
    two requests to the model in all). *)
Theorem at_most_two_attempts (w : World) :
  (count is_apply (fst (program w)) <= 2)%nat /\
  (count (is_rerequest (task_of w)) (fst (program w)) <= 1)%nat /\
  (count is_request (fst (program w)) <= 2)%nat.
Proof.
  exec; tidy; lia.
Qed.

(** C5. If an apply attempt fails, exactly one corrective re-request
    is made; if two attempts fail, the run ends with the fatal error
    [patch failed twice] and exit status 1, and no commit, push or
    pull request is ever attempted. *)
Theorem second_failure_is_fatal (w : World) :
  (1 <= count is_failed_apply (fst (program w)))%nat ->
  count (is_rerequest (task_of w)) (fst (program w)) = 1%nat /\
  (count is_failed_apply (fst (program w)) = 2%nat ->
   snd (program w) = 1%Z /\
   In (ConsoleErrorObj PatchFailedTwice) (fst (program w)) /\
   count is_commit (fst (program w)) = 0%nat /\
   count is_push (fst (program w)) = 0%nat /\
   count is_pull_request (fst (program w)) = 0%nat).
Proof.
  exec; tidy; intros Hfailed; try lia;
    (split; [reflexivity|]); intros Htwice; try discriminate Htwice;
    cbn [In]; auto 6.
Qed.

Lemma second_failure_is_fatal_witness :
  (1 <= count is_failed_apply (fst (program Examples.never_applies)))%nat /\
  count (is_rerequest (task_of Examples.never_applies))
        (fst (program Examples.never_applies)) = 1%nat /\
  snd (program Examples.never_applies) = 1%Z /\
  In (ConsoleErrorObj PatchFailedTwice) (fst (program Examples.never_applies)) /\
  count is_commit (fst (program Examples.never_applies)) = 0%nat /\
  count is_push (fst (program Examples.never_applies)) = 0%nat /\
  count is_pull_request (fst (program Examples.never_applies)) = 0%nat.
Proof.
  assert (Hfailed :
            (1 <= count is_failed_apply (fst (program Examples.never_applies)))%nat)
    by (vm_compute; lia).
  destruct (second_failure_is_fatal Examples.never_applies Hfailed)
    as [Hone Hfatal].
  split; [exact Hfailed|]. split; [exact Hone|].
  apply Hfatal. reflexivity.
Defined.

(** C4. Let [r] be the model's answer to the first request. If [r]
    trimmed is the literal [__NO_CHANGES__], the run ends with status 0
    without any apply attempt (and without commit, push or pull
    request). If [r] trimmed is anything else, the run goes on to an
    apply attempt on the trimmed text. *)
Theorem sentinel_short_circuits (w : World) (model : jsstring)
        (temperature : Z) (messages : list Message) (r : jsstring) :
  In (ChatCompletion model temperature messages (Some r)) (fst (program w)) ->
  is_first_request (task_of w)
    (ChatCompletion model temperature messages (Some r)) = true ->
  (trim r = NO_CHANGES ->
   snd (program w) = 0%Z /\
   count is_apply (fst (program w)) = 0%nat /\
   count is_commit (fst (program w)) = 0%nat /\
   count is_push (fst (program w)) = 0%nat /\
   count is_pull_request (fst (program w)) = 0%nat) /\
  (trim r <> NO_CHANGES ->
   (1 <= count (is_apply_of (trim r)) (fst (program w)))%nat).
Proof.
  exec; cbn [fst snd]; intros Hin Hfirst; in_cases Hin;
    injection Hin as <- <- <- <-;
    rewrite ?is_first_request_retry in Hfirst; try discriminate Hfirst;
    match goal with
    | H : eqb _ NO_CHANGES = true |- _ => apply eqb_eq in H
    | H : eqb _ NO_CHANGES = false |- _ => apply eqb_neq in H
    end;
    (split; intros Hr; try contradiction);
    tidy; rewrite ?eqb_refl; cbn [andb Nat.add]; auto; lia.
Qed.


Lemma sentinel_short_circuits_witness :
  (snd (program Examples.nothing_to_do) = 0%Z /\
   count is_apply (fst (program Examples.nothing_to_do)) = 0%nat /\
   count is_commit (fst (program Examples.nothing_to_do)) = 0%nat /\
   count is_push (fst (program Examples.nothing_to_do)) = 0%nat /\
   count is_pull_request (fst (program Examples.nothing_to_do)) = 0%nat) /\
  (1 <= count (is_apply_of (NO_CHANGES ++ lit " - all good"))
              (fst (program Examples.chatty)))%nat.
Proof.
  split.
  - apply (@sentinel_short_circuits Examples.nothing_to_do DEFAULT_MODEL 0%Z
             (Examples.messages_with []) (NO_CHANGES ++ [10%N])).
    + vm_compute. right. left. reflexivity.
    + reflexivity.
    + reflexivity.
  - apply (@sentinel_short_circuits Examples.chatty DEFAULT_MODEL 0%Z
             (Examples.messages_with []) (NO_CHANGES ++ lit " - all good")).
    + vm_compute. do 6 right. left. reflexivity.
    + reflexivity.
    + vm_compute. discriminate.
Defined.

(** C6, as the specification words it, fails: on a repository whose
    default branch is [develop] a successful run opens its pull request
    against [main]. *)
Lemma main_is_not_default :
  ~ Spec.pr_targets_default_branch Examples.develop_default.
Proof.
  intros Htarget.
  assert (Hbase : lit "main" = lit "develop").
  { apply (Htarget eq_refl) with
      (pr := {| owner := Some (lit "octo");
                repo := Some (lit "demo");
                title := lit "AI: " ++ task_of Examples.develop_default;
                head := lit "ai-task-1700000000000";
                base := lit "main";
                body := lit "Automated patch generated by OpenAI" ++
                        [10%N; 10%N] ++ lit "Task:" ++ [10%N] ++
                        task_of Examples.develop_default |})
      (ok := true).
    - vm_compute. lia.
    - vm_compute. right. left. reflexivity. }
  discriminate Hbase.
Qed.

(** C6, amended. On a run that ends with status 0 after a patch
    applied, exactly one pull request is asked for and it is opened;
    its base is the branch named [main], whatever the repository's
    default branch is; its title is [AI: ] followed by the task and
    its body is a fixed header followed by the task. *)
Theorem one_pull_request_to_main (w : World) :
  snd (program w) = 0%Z ->
  (1 <= count is_applied (fst (program w)))%nat ->
  count is_pull_request (fst (program w)) = 1%nat /\
  count is_opened (fst (program w)) = 1%nat /\
  forall pr ok,
    In (PullsCreate pr ok) (fst (program w)) ->
    ok = true /\
    base pr = lit "main" /\
    title pr = lit "AI: " ++ task_of w /\
    body pr = lit "Automated patch generated by OpenAI" ++
              [10%N; 10%N] ++ lit "Task:" ++ [10%N] ++ task_of w.
Proof.
  exec; tidy; intros Hexit Happlied; try discriminate Hexit; try lia;
    (split; [reflexivity|]); (split; [reflexivity|]);
    intros pr ok Hin; in_cases Hin;
    injection Hin as <- <-; cbn [base title body]; auto.
Qed.

Lemma one_pull_request_to_main_witness :
  snd (program Examples.happy) = 0%Z /\
  count is_pull_request (fst (program Examples.happy)) = 1%nat /\
  count is_opened (fst (program Examples.happy)) = 1%nat /\
  forall pr ok,
    In (PullsCreate pr ok) (fst (program Examples.happy)) ->
    ok = true /\
    base pr = lit "main" /\
    title pr = lit "AI: " ++ task_of Examples.happy /\
    body pr = lit "Automated patch generated by OpenAI" ++
              [10%N; 10%N] ++ lit "Task:" ++ [10%N] ++ task_of Examples.happy.
Proof.
  split; [reflexivity|].
  apply (one_pull_request_to_main Examples.happy).
  - reflexivity.
  - vm_compute. lia.
Defined.

(** C9. The sentinel is looked for in the first answer only. If the
    answer to the corrective re-request, trimmed, is the literal
    [__NO_CHANGES__], the run does not take the no-change exit: that
    text is the input of the second apply attempt, and if that attempt
    fails too the run ends with [patch failed twice], status 1 and no
    commit. *)
Theorem sentinel_on_retry_is_applied (w : World) (model : jsstring)
        (temperature : Z) (messages : list Message) (r : jsstring) :
  In (ChatCompletion model temperature messages (Some r)) (fst (program w)) ->
  is_rerequest (task_of w)
    (ChatCompletion model temperature messages (Some r)) = true ->
  trim r = NO_CHANGES ->
  count is_apply (fst (program w)) = 2%nat /\
  count (is_apply_of NO_CHANGES) (fst (program w)) = 1%nat /\
  count is_noop_notice (fst (program w)) = 0%nat /\
  (count is_failed_apply (fst (program w)) = 2%nat ->
   snd (program w) = 1%Z /\
   In (ConsoleErrorObj PatchFailedTwice) (fst (program w)) /\
   count is_commit (fst (program w)) = 0%nat).
Proof.
  exec; cbn [fst snd]; intros Hin Hre Hr; in_cases Hin;
    injection Hin as <- <- <- <-;
    rewrite ?is_rerequest_first in Hre; try discriminate Hre;
    tidy; rewrite Hr, eqb_refl;
    match goal with H : eqb _ NO_CHANGES = false |- _ => rewrite H end;
    cbn [Nat.add];
    do 3 (split; [reflexivity|]); intros Htwice; try discriminate Htwice;
    cbn [In]; auto 6.
Qed.

Lemma sentinel_on_retry_is_applied_witness :
  count is_apply (fst (program Examples.sentinel_on_retry)) = 2%nat /\
  count (is_apply_of NO_CHANGES) (fst (program Examples.sentinel_on_retry))
  = 1%nat /\
  count is_noop_notice (fst (program Examples.sentinel_on_retry)) = 0%nat /\
  (count is_failed_apply (fst (program Examples.sentinel_on_retry)) = 2%nat ->
   snd (program Examples.sentinel_on_retry) = 1%Z /\
   In (ConsoleErrorObj PatchFailedTwice)
      (fst (program Examples.sentinel_on_retry)) /\
   count is_commit (fst (program Examples.sentinel_on_retry)) = 0%nat).
Proof.
  apply (@sentinel_on_retry_is_applied Examples.sentinel_on_retry
           DEFAULT_MODEL 0%Z (Examples.messages_with RETRY_INSTRUCTION)
           NO_CHANGES).
  - vm_compute. do 3 right. left. reflexivity.
  - reflexivity.
  - reflexivity.
Defined.

End BotClaims.

(* ================================================================== *)
(** * More on the sampler *)
(* ================================================================== *)

Module SamplerMore.

Import Sampler SamplerFacts Walk.

Section KeptFrom.

Context {A : Type}.

Lemma kept_from_nil (l : list A) : kept_from [] l.
Proof. induction l; constructor; assumption. Qed.

Lemma kept_from_refl (l : list A) : kept_from l l.
Proof. induction l; constructor; assumption. Qed.

Lemma kept_from_In (l' l : list A) :
  kept_from l' l -> forall x, In x l' -> In x l.
Proof.
  induction 1 as [|y l' l _ IH|y l' l _ IH]; intros x Hx.
  - exact Hx.
  - right. now apply IH.
  - destruct Hx as [->|Hx]; [now left | right; now apply IH].
Qed.

Lemma kept_from_NoDup (l' l : list A) :
  kept_from l' l -> NoDup l -> NoDup l'.
Proof.
  induction 1 as [|y l' l Hk IH|y l' l Hk IH]; intros Hnd.
  - constructor.
  - inversion Hnd; subst. now apply IH.
  - inversion Hnd as [|? ? Hnotin Hnd']; subst.
    constructor; [|now apply IH].
    intros Hin. apply Hnotin. eapply kept_from_In; eassumption.
Qed.

Lemma kept_from_sorted (R : A -> A -> Prop) (l' l : list A) :
  kept_from l' l -> StronglySorted R l -> StronglySorted R l'.
Proof.
  induction 1 as [|y l' l Hk IH|y l' l Hk IH]; intros Hs.
  - constructor.
  - inversion Hs; subst. now apply IH.
  - inversion Hs as [|? ? Hs' Hall]; subst.
    constructor; [now apply IH|].
    rewrite Forall_forall in *. intros x Hx.
    apply Hall. eapply kept_from_In; eassumption.
Qed.

End KeptFrom.

(** The loop appends to [picked] some of the candidates, in their order. *)
Lemma sampleLoop_kept t maxFiles cands :
  forall picked budget picked' budget',
    sampleLoop t maxFiles cands picked budget = Ok (picked', budget') ->
    exists new, picked' = picked ++ new /\ kept_from new cands.
Proof.
  induction cands as [|f rest IH]; intros picked budget picked' budget' Hrun;
    simpl in Hrun.
  - injection Hrun as <- <-. exists []. split; [now rewrite app_nil_r|constructor].
  - destruct (maxFiles <=? N.of_nat (length picked))%N.
    + injection Hrun as <- <-. exists [].
      split; [now rewrite app_nil_r | apply kept_from_nil].
    + destruct (stat t f) as [s|]; [|discriminate].
      destruct ((s <? FILE_CAP)%N && (0 <? budget - Z.of_N s)%Z).
      * destruct (IH _ _ _ _ Hrun) as [new [-> Hk]].
        exists (f :: new). split; [now rewrite <- app_assoc | now constructor].
      * destruct (IH _ _ _ _ Hrun) as [new [-> Hk]].
        exists new. split; [reflexivity | now constructor].
Qed.

Lemma total_bytes_perm t l l' :
  Permutation l l' -> total_bytes t l = total_bytes t l'.
Proof.
  induction 1; simpl; try lia.
Qed.

(** When nothing stands in the way the loop takes every candidate. *)
Lemma sampleLoop_takes_all t maxFiles cands :
  forall picked budget,
    (forall f, In f cands -> exists s, stat t f = Some s /\ (s < FILE_CAP)%N) ->
    (N.of_nat (length picked + length cands) <= maxFiles)%N ->
    (total_bytes t cands < budget)%Z ->
    sampleLoop t maxFiles cands picked budget =
    Ok (picked ++ cands, (budget - total_bytes t cands)%Z).
Proof.
  induction cands as [|f rest IH]; intros picked budget Hsmall Hcount Hbytes;
    simpl.
  - rewrite app_nil_r. f_equal. f_equal. lia.
  - simpl in Hcount, Hbytes.
    assert (Hrest : (0 <= total_bytes t rest)%Z).
    { clear. induction rest as [|g rest IH]; simpl; [lia|].
      unfold size_of. destruct (stat t g); lia. }
    destruct (N.leb_spec maxFiles (N.of_nat (length picked))) as [Hcap|Hcap];
      [lia|].
    destruct (Hsmall f (or_introl eq_refl)) as [s [Hs Hlt]].
    unfold size_of in Hbytes. rewrite Hs in *.
    replace ((s <? FILE_CAP)%N && (0 <? budget - Z.of_N s)%Z) with true.
    + rewrite IH.
      * rewrite <- app_assoc. simpl. unfold size_of. rewrite Hs.
        f_equal. f_equal. lia.
      * intros g Hg. apply Hsmall. now right.
      * rewrite length_app. simpl. lia.
      * lia.
    + symmetry. apply andb_true_iff. split.
      * now apply N.ltb_lt.
      * apply Z.ltb_lt. lia.
Qed.

(** While the cap cannot be reached every candidate is sized, and the
    first one that cannot be sized ends the loop. *)
Lemma sampleLoop_stat_fails t maxFiles cands f :
  forall picked budget,
    (N.of_nat (length picked + length cands) <= maxFiles)%N ->
    In f cands ->
    stat t f = None ->
    exists g, In g cands /\ stat t g = None /\
              sampleLoop t maxFiles cands picked budget = Fail (IOError g).
Proof.
  induction cands as [|c rest IH]; intros picked budget Hcount Hin Hnone;
    [contradiction|].
  simpl in Hcount. simpl.
  destruct (N.leb_spec maxFiles (N.of_nat (length picked))) as [Hcap|Hcap];
    [lia|].
  destruct (stat t c) as [s|] eqn:Hs.
  - destruct Hin as [->|Hin]; [congruence|].
    destruct ((s <? FILE_CAP)%N && (0 <? budget - Z.of_N s)%Z).
    + destruct (IH (picked ++ [c]) (budget - Z.of_N s)%Z) as [g [Hg [Hgn Hrun]]];
        auto.
      * rewrite length_app. simpl. lia.
      * exists g. auto.
    + destruct (IH picked budget) as [g [Hg [Hgn Hrun]]]; auto.
      * lia.
      * exists g. auto.
  - exists c. auto.
Qed.

Lemma readParts_fails t picked f :
  In f picked -> readFile t f = None ->
  exists g, In g picked /\ readFile t g = None /\
            readParts t picked = Fail (IOError g).
Proof.
  induction picked as [|c rest IH]; intros Hin Hnone; [contradiction|].
  simpl. destruct (readFile t c) as [code|] eqn:Hc.
  - destruct Hin as [->|Hin]; [congruence|].
    destruct (IH Hin Hnone) as [g [Hg [Hgn Hrun]]].
    exists g. rewrite Hrun. auto.
  - exists c. auto.
Qed.

Lemma join_nonempty sep p parts : p <> [] -> join sep (p :: parts) <> [].
Proof.
  intros Hp. simpl. destruct parts; [exact Hp|].
  destruct p; [congruence|discriminate].
Qed.

(** X1. The candidates are walked in ascending order of path length,
    paths of the same length in the order the glob found them: the walk
    order is a rearrangement of the candidates, sorted by length, that
    keeps the discovery order within each length. *)
Theorem walk_order_is_stable_sort (l : list jsstring) :
  Permutation l (sort_by_length l) /\
  StronglySorted by_length (sort_by_length l) /\
  forall k, of_length k (sort_by_length l) = of_length k l.
Proof.
  split; [apply sort_by_length_perm|].
  split; [apply sort_by_length_sorted|].
  intros k. apply sort_by_length_stable.
Qed.

(** X2. The files picked are candidates, kept in walk order: the picked
    list comes from the sorted candidate list by leaving files out, so
    it is sorted by path length, and it has no path twice when the glob
    returned none twice. *)
Theorem picked_in_walk_order (t : WorkingTree) (maxFiles maxBytes : N)
        (picked : list jsstring) :
  pickFiles t maxFiles maxBytes = Ok picked ->
  kept_from picked (sort_by_length (globby t)) /\
  StronglySorted by_length picked /\
  (NoDup (globby t) -> NoDup picked).
Proof.
  intros Hpick. apply pickFiles_inv in Hpick as [b Hrun].
  apply sampleLoop_kept in Hrun as [new [Hp Hk]]. simpl in Hp. subst new.
  split; [exact Hk|]. split.
  - eapply kept_from_sorted; [exact Hk | apply sort_by_length_sorted].
  - intros Hnd. eapply kept_from_NoDup; [exact Hk|].
    eapply Permutation_NoDup; [apply sort_by_length_perm | exact Hnd].
Qed.

Lemma picked_in_walk_order_witness :
  kept_from [lit "bb"] (sort_by_length (globby Examples.two_files)) /\
  StronglySorted by_length [lit "bb"] /\
  (NoDup (globby Examples.two_files) -> NoDup [lit "bb"]).
Proof.
  apply (@picked_in_walk_order Examples.two_files 25 100 [lit "bb"]).
  reflexivity.
Defined.

(** X3. When every candidate is under the per-file cap, the candidates
    are no more than the file limit and their sizes add up to less than
    the byte budget, the sampler picks all of them, in walk order. *)
Theorem all_fit_all_picked (t : WorkingTree) (maxFiles maxBytes : N) :
  (forall f, In f (globby t) ->
             exists s, stat t f = Some s /\ (s < FILE_CAP)%N) ->
  (N.of_nat (length (globby t)) <= maxFiles)%N ->
  (total_bytes t (globby t) < Z.of_N maxBytes)%Z ->
  pickFiles t maxFiles maxBytes = Ok (sort_by_length (globby t)).
Proof.
  intros Hsmall Hcount Hbytes. unfold pickFiles.
  rewrite sampleLoop_takes_all; [reflexivity| | |].
  - intros f Hf. apply Hsmall. now apply sort_by_length_In.
  - simpl. rewrite <- (Permutation_length (sort_by_length_perm (globby t))).
    exact Hcount.
  - rewrite <- (total_bytes_perm t (sort_by_length_perm (globby t))).
    exact Hbytes.
Qed.

Lemma all_fit_all_picked_witness :
  pickFiles Examples.two_files 25 40000 = Ok [lit "a"; lit "bb"].
Proof.
  apply (@all_fit_all_picked Examples.two_files 25 40000).
  - simpl. intros f [<-|[<-|[]]]; eexists; (split; [reflexivity|]);
      unfold FILE_CAP; lia.
  - simpl. lia.
  - vm_compute. reflexivity.
Defined.

(** X4. A candidate that cannot be sized is not passed over: when the
    candidates are no more than the file limit (so the walk cannot stop
    early) and [fs.stat] rejects for one of them, the sampler fails with
    the I/O error of a candidate that could not be sized. *)
Theorem stat_failure_propagates (t : WorkingTree) (maxFiles maxBytes : N)
        (f : jsstring) :
  (N.of_nat (length (globby t)) <= maxFiles)%N ->
  In f (globby t) ->
  stat t f = None ->
  exists g, In g (globby t) /\ stat t g = None /\
            sampleRepoContext t maxFiles maxBytes = Fail (IOError g).
Proof.
  intros Hcount Hin Hnone.
  destruct (@sampleLoop_stat_fails t maxFiles (sort_by_length (globby t)) f
              [] (Z.of_N maxBytes)) as [g [Hg [Hgn Hrun]]].
  - simpl. rewrite <- (Permutation_length (sort_by_length_perm (globby t))).
    exact Hcount.
  - now apply sort_by_length_In.
  - exact Hnone.
  - exists g. split; [now apply sort_by_length_In|]. split; [exact Hgn|].
    unfold sampleRepoContext, pickFiles. now rewrite Hrun.
Qed.

Lemma stat_failure_propagates_witness :
  exists g, In g (globby one_gone) /\ stat one_gone g = None /\
            sampleRepoContext one_gone 25 40000 = Fail (IOError g).
Proof.
  apply (@stat_failure_propagates one_gone 25 40000 (lit "gone.js")).
  - simpl. lia.
  - now left.
  - reflexivity.
Defined.

(** X5. A picked file that cannot be read is not left out of the
    bundle: if [fs.readFile] rejects for a file the loop picked, the
    sampler fails with the I/O error of a picked file that could not be
    read. *)
Theorem read_failure_propagates (t : WorkingTree) (maxFiles maxBytes : N)
        (picked : list jsstring) (f : jsstring) :
  pickFiles t maxFiles maxBytes = Ok picked ->
  In f picked ->
  readFile t f = None ->
  exists g, In g picked /\ readFile t g = None /\
            sampleRepoContext t maxFiles maxBytes = Fail (IOError g).
Proof.
  intros Hpick Hin Hnone.
  destruct (readParts_fails t picked f Hin Hnone) as [g [Hg [Hgn Hrun]]].
  exists g. split; [exact Hg|]. split; [exact Hgn|].
  unfold sampleRepoContext. now rewrite Hpick, Hrun.
Qed.

Lemma read_failure_propagates_witness :
  exists g, In g [lit "a"; lit "bb"] /\ readFile one_unreadable g = None /\
            sampleRepoContext one_unreadable 25 40000 = Fail (IOError g).
Proof.
  apply (@read_failure_propagates one_unreadable 25 40000
                                  [lit "a"; lit "bb"] (lit "bb")).
  - reflexivity.
  - right. now left.
  - reflexivity.
Defined.

(** X6. The context string is empty exactly when no file was picked,
    and otherwise it opens with the [FILE:] line of the first file
    picked. *)
Theorem bundle_opens_with_first_pick (t : WorkingTree) (maxFiles maxBytes : N)
        (picked : list jsstring) (bundle : jsstring) :
  pickFiles t maxFiles maxBytes = Ok picked ->
  sampleRepoContext t maxFiles maxBytes = Ok bundle ->
  (bundle = [] <-> picked = []) /\
  (forall f rest, picked = f :: rest ->
     exists tail, bundle = lit "FILE: " ++ f ++ [10%N] ++ tail).
Proof.
  intros Hpick Hbundle. unfold sampleRepoContext in Hbundle.
  rewrite Hpick in Hbundle.
  destruct (readParts t picked) as [parts|e] eqn:Hread; [|discriminate].
  injection Hbundle as <-.
  destruct picked as [|f rest]; simpl in Hread.
  - injection Hread as <-. split; [tauto|]. discriminate.
  - destruct (readFile t f) as [code|]; [|discriminate].
    destruct (readParts t rest) as [ps|e]; [|discriminate].
    injection Hread as <-. split.
    + split; [|discriminate]. intros H.
      apply join_nonempty in H; [contradiction|discriminate].
    + intros f' rest' [= <- <-].
      destruct ps as [|q ps]; simpl.
      * exists code. reflexivity.
      * exists (code ++ END_FILE ++ join END_FILE (q :: ps)).
        now rewrite <- !app_assoc.
Qed.

Lemma bundle_opens_with_first_pick_witness :
  (Examples.blob = [] <-> [lit "a"; lit "bb"] = []) /\
  (forall f rest, [lit "a"; lit "bb"] = f :: rest ->
     exists tail, Examples.blob = lit "FILE: " ++ f ++ [10%N] ++ tail).
Proof.
  apply (@bundle_opens_with_first_pick Examples.two_files 25 40000
                                       [lit "a"; lit "bb"] Examples.blob);
    reflexivity.
Defined.

End SamplerMore.

(* ================================================================== *)
(** * More on the pipeline *)
(* ================================================================== *)

Module BotMore.

Import JSFacts Sampler SamplerFacts Bot Trace BotFacts Walk.

(** *** [trim] once more *)

Lemma trimStart_head s c r : trimStart s = c :: r -> is_space c = false.
Proof.
  induction s as [|d s IH]; simpl; [discriminate|].
  destruct (is_space d) eqn:Hd; [exact IH|].
  intros [= <- _]. exact Hd.
Qed.

Lemma trimStart_fixed c r : is_space c = false -> trimStart (c :: r) = c :: r.
Proof. intros H. simpl. now rewrite H. Qed.

Lemma trimStart_idem s : trimStart (trimStart s) = trimStart s.
Proof.
  destruct (trimStart s) as [|c r] eqn:H; [reflexivity|].
  apply trimStart_fixed. eapply trimStart_head; eassumption.
Qed.

Lemma trimStart_last l c :
  is_space c = false -> exists l', trimStart (l ++ [c]) = l' ++ [c].
Proof.
  intros Hc. induction l as [|d l [l' IH]]; simpl.
  - rewrite Hc. now exists [].
  - destruct (is_space d); [now exists l'|]. now exists (d :: l).
Qed.

(** What [trim] returns has no white space at either end. *)
Lemma trim_ends s :
  (forall c r, trim s = c :: r -> is_space c = false) /\
  (forall q c, trim s = q ++ [c] -> is_space c = false).
Proof.
  unfold trim, trimEnd. split.
  - intros c r H.
    destruct (trimStart s) as [|d x] eqn:Hx; [discriminate|].
    assert (Hd : is_space d = false) by (eapply trimStart_head; eassumption).
    simpl rev in H.
    destruct (trimStart_last (rev x) d Hd) as [l' Hl]. rewrite Hl in H.
    rewrite rev_app_distr in H. simpl in H. now injection H as <- _.
  - intros q c H.
    apply (f_equal (@rev _)) in H. rewrite rev_involutive, rev_app_distr in H.
    simpl in H. eapply trimStart_head; eassumption.
Qed.

Lemma trim_idem s : trim (trim s) = trim s.
Proof.
  destruct (trim_ends s) as [Hfirst Hlast].
  destruct (trim s) as [|c r] eqn:Ht; [reflexivity|].
  unfold trim at 1. rewrite trimStart_fixed by (eapply Hfirst; reflexivity).
  unfold trimEnd.
  destruct (rev (c :: r)) as [|d x] eqn:Hr.
  - apply (f_equal (@rev _)) in Hr. rewrite rev_involutive in Hr. discriminate.
  - rewrite trimStart_fixed; [now rewrite <- Hr, rev_involutive|].
    apply (Hlast (rev x) d).
    apply (f_equal (@rev _)) in Hr. rewrite rev_involutive in Hr. exact Hr.
Qed.

(** [argv.join(" ")] is the empty string for no argument and for one
    empty argument only. *)
Lemma join_space_empty (l : list jsstring) :
  join (lit " ") l = [] <-> l = [] \/ l = [[]].
Proof.
  split.
  - destruct l as [|p [|q l]]; simpl; auto.
    + intros ->. now right.
    + intros H. apply app_eq_nil in H as [_ H]. discriminate.
  - intros [->| ->]; reflexivity.
Qed.

Lemma no_edits_is_itself : eqb NO_EDITS NO_EDITS = true.
Proof. apply eqb_refl. Qed.

(** The sample behind a context string, at the default limits. *)
Lemma default_sample_bounds t blob :
  sampleRepoContext t MAX_FILES MAX_BYTES = Ok blob ->
  exists picked,
    pickFiles t MAX_FILES MAX_BYTES = Ok picked /\
    (length picked <= 25)%nat /\
    (total_bytes t picked < 40000)%Z.
Proof.
  intros Hblob.
  destruct (@sampleRepoContext_picks _ _ _ _ Hblob) as [picked [parts [Hpick _]]].
  exists picked. split; [exact Hpick|].
  apply pickFiles_inv in Hpick as [b Hrun].
  apply sampleLoop_post in Hrun as [new Hp _ Hb Hpos Hcnt].
  simpl in Hp. subst picked. unfold MAX_FILES, MAX_BYTES in *. split.
  - assert (N.of_nat (length new) <= 25)%N by (apply Hcnt; simpl; lia). lia.
  - destruct new as [|f new]; [simpl; lia|].
    assert (0 < b)%Z by (apply Hpos; discriminate). lia.
Qed.

Ltac tidy_more :=
  tidy;
  rewrite ?no_edits_is_itself in *;
  cbn [is_committed is_pushed is_failed_request Nat.add] in *.

Ltac find_event := cbn [In]; repeat first [left; reflexivity | right].

(** X7. The exit status is 0 or 1. It is 0 exactly when the run printed
    the no-change notice or opened a pull request, and 1 exactly when
    the last thing the run did was [process.exit(1)]. *)
Theorem exit_status_tells (w : World) :
  (snd (program w) = 0%Z \/ snd (program w) = 1%Z) /\
  (snd (program w) = 0%Z <->
   count is_noop_notice (fst (program w)) = 1%nat \/
   count is_opened (fst (program w)) = 1%nat) /\
  (snd (program w) = 1%Z <->
   exists rest, fst (program w) = ProcessExit 1 :: rest).
Proof.
  exec; tidy_more; (split; [auto|]); split; split; intros H;
    try discriminate H; auto;
    try (eexists; reflexivity);
    match type of H with
    | _ \/ _ => destruct H as [H|H]; discriminate H
    | _ => destruct H as [rest H]; discriminate H
    end.
Qed.

(** X8. The run stops at the usage message, with status 1 and without
    touching the file system, the remote or the model, exactly when the
    command line has no argument or a single empty one. *)
Theorem no_task_no_work (w : World) :
  (argv w = [] \/ argv w = [[]]) <->
  program w = ([ProcessExit 1; ConsoleError USAGE], 1%Z).
Proof.
  exec; split; intros H; try reflexivity; try discriminate H.
  all: try (apply join_space_empty; assumption).
  all: apply join_space_empty in H; congruence.
Qed.

(** X9. A run commits, pushes and asks for a pull request at most once
    each, and never out of turn: a commit is attempted only after a
    patch applied, a push only after the commit was made, a pull request
    only after the push went through. *)
Theorem steps_are_gated (w : World) :
  (count is_commit (fst (program w)) <= 1)%nat /\
  (count is_push (fst (program w)) <= 1)%nat /\
  (count is_pull_request (fst (program w)) <= 1)%nat /\
  (1 <= count is_commit (fst (program w)) ->
   count is_applied (fst (program w)) = 1)%nat /\
  (1 <= count is_push (fst (program w)) ->
   count is_committed (fst (program w)) = 1)%nat /\
  (1 <= count is_pull_request (fst (program w)) ->
   count is_pushed (fst (program w)) = 1)%nat.
Proof.
  exec; tidy_more; repeat split; intros; lia.
Qed.

(** X10. One branch name, [ai-task-] followed by the clock reading, is
    used throughout a run: it is the branch checked out, the branch
    pushed (to [origin]) and the head of the pull request; the commit
    message is [AI: ] followed by the task. *)
Theorem one_branch_throughout (w : World) :
  (forall d b ok, In (GitCheckoutLocalBranch d b ok) (fst (program w)) ->
                  b = branch_of w) /\
  (forall r b ok, In (GitPush r b ok) (fst (program w)) ->
                  r = lit "origin" /\ b = branch_of w) /\
  (forall pr ok, In (PullsCreate pr ok) (fst (program w)) ->
                 head pr = branch_of w) /\
  (forall m ok, In (GitAddCommit m ok) (fst (program w)) ->
                m = lit "AI: " ++ task_of w).
Proof.
  unfold branch_of. exec; cbn [fst].
  all: split; [intros d b ok Hin; in_cases Hin; now injection Hin as <- <- <-|].
  all: split; [intros r b ok Hin; in_cases Hin; now injection Hin as <- <- <-|].
  all: split; [intros pr ok Hin; in_cases Hin; now injection Hin as <- <-|].
  all: intros m ok Hin; in_cases Hin; now injection Hin as <- <-.
Qed.

(** X11. The only command a run spawns is [git apply -], and what it
    feeds it is an answer of the model, trimmed: the input has no white
    space at either end (so no final line feed), and the answer it comes
    from is in the history. *)
Theorem applied_text_is_model_answer (w : World) (cmd : jsstring)
        (args : list jsstring) (cwd input : jsstring) (status : option Z) :
  In (Spawn cmd args cwd input status) (fst (program w)) ->
  is_apply (Spawn cmd args cwd input status) = true /\
  trim input = input /\
  (forall q c, input = q ++ [c] -> is_space c = false) /\
  exists model temperature messages r,
    input = trim r /\
    In (ChatCompletion model temperature messages (Some r)) (fst (program w)).
Proof.
  exec; cbn [fst]; intros Hin; in_cases Hin;
    injection Hin as <- <- <- <- <-;
    (split; [apply is_apply_git|]);
    (split; [apply trim_idem|]);
    (split; [apply trim_ends|]);
    do 4 eexists; (split; [reflexivity|]); find_event.
Qed.

Lemma applied_text_is_model_answer_witness :
  is_apply (Spawn (lit "git") [lit "apply"; lit "-"]
                  (path_join (lit "/tmp") (lit "repo-") ++ lit "x1y2z3")
                  (trim Examples.a_diff) (Some 0%Z)) = true /\
  trim (trim Examples.a_diff) = trim Examples.a_diff /\
  (forall q c, trim Examples.a_diff = q ++ [c] -> is_space c = false) /\
  exists model temperature messages r,
    trim Examples.a_diff = trim r /\
    In (ChatCompletion model temperature messages (Some r))
       (fst (program Examples.happy)).
Proof.
  apply (@applied_text_is_model_answer Examples.happy).
  vm_compute. repeat first [left; reflexivity | right].
Defined.

(** X12. The run takes the no-change exit exactly when the model's
    first answer is the sentinel with nothing but white space around
    it. *)
Theorem no_change_exit_iff_padded_sentinel (w : World) (model : jsstring)
        (temperature : Z) (messages : list Message) (r : jsstring) :
  In (ChatCompletion model temperature messages (Some r)) (fst (program w)) ->
  is_first_request (task_of w)
    (ChatCompletion model temperature messages (Some r)) = true ->
  (count is_noop_notice (fst (program w)) = 1%nat <->
   exists pre post, blank pre /\ blank post /\ r = pre ++ NO_CHANGES ++ post).
Proof.
  exec; cbn [fst snd]; intros Hin Hfirst; in_cases Hin;
    injection Hin as <- <- <- <-;
    rewrite ?is_first_request_retry in Hfirst; try discriminate Hfirst;
    rewrite <- trim_is_sentinel;
    match goal with
    | H : eqb _ NO_CHANGES = true |- _ => apply eqb_eq in H
    | H : eqb _ NO_CHANGES = false |- _ => apply eqb_neq in H
    end;
    tidy_more; split; intros H; try reflexivity; try assumption;
    try discriminate H; contradiction.
Qed.

Lemma no_change_exit_iff_padded_sentinel_witness :
  count is_noop_notice (fst (program Examples.nothing_to_do)) = 1%nat <->
  exists pre post,
    blank pre /\ blank post /\
    NO_CHANGES ++ [10%N] = pre ++ NO_CHANGES ++ post.
Proof.
  apply (@no_change_exit_iff_padded_sentinel Examples.nothing_to_do
           DEFAULT_MODEL 0%Z (Examples.messages_with [])
           (NO_CHANGES ++ [10%N])).
  - vm_compute. repeat first [left; reflexivity | right].
  - reflexivity.
Defined.

(** X13. A failed model call is not retried: it is the last call the
    run makes, the run prints the error and exits with status 1, and
    there is no commit and no pull request. *)
Theorem model_failure_is_fatal (w : World) (model : jsstring)
        (temperature : Z) (messages : list Message) :
  In (ChatCompletion model temperature messages None) (fst (program w)) ->
  snd (program w) = 1%Z /\
  (exists rest,
     fst (program w) =
     ProcessExit 1 :: ConsoleErrorObj ModelError
       :: ChatCompletion model temperature messages None :: rest) /\
  count is_failed_request (fst (program w)) = 1%nat /\
  count is_commit (fst (program w)) = 0%nat /\
  count is_pull_request (fst (program w)) = 0%nat.
Proof.
  exec; cbn [fst snd]; intros Hin; in_cases Hin;
    injection Hin as <- <- <-; tidy_more;
    (split; [reflexivity|]); (split; [eexists; reflexivity|]);
    repeat split; reflexivity.
Qed.

Lemma model_failure_is_fatal_witness :
  snd (program model_down) = 1%Z /\
  (exists rest,
     fst (program model_down) =
     ProcessExit 1 :: ConsoleErrorObj ModelError
       :: ChatCompletion DEFAULT_MODEL 0 (Examples.messages_with []) None
       :: rest) /\
  count is_failed_request (fst (program model_down)) = 1%nat /\
  count is_commit (fst (program model_down)) = 0%nat /\
  count is_pull_request (fst (program model_down)) = 0%nat.
Proof.
  apply (@model_failure_is_fatal model_down DEFAULT_MODEL 0%Z
           (Examples.messages_with [])).
  vm_compute. repeat first [left; reflexivity | right].
Defined.

(** X14. Every request to the model is made at temperature 0 with the
    configured model (or the default one), and carries the system
    prompt, the context sampled once from the cloned default branch at
    the default limits (at most 25 files, less than 40000 bytes in all)
    and the task, alone or followed by the corrective instruction. *)
Theorem requests_carry_sampled_context (w : World) (model : jsstring)
        (temperature : Z) (messages : list Message) (reply : option jsstring) :
  In (ChatCompletion model temperature messages reply) (fst (program w)) ->
  temperature = 0%Z /\
  model = or_default (OPENAI_ASSISTANT_MODEL w) DEFAULT_MODEL /\
  exists tree blob picked,
    tip (remote_repo w) (default_branch (remote_repo w)) = Some tree /\
    sampleRepoContext tree MAX_FILES MAX_BYTES = Ok blob /\
    pickFiles tree MAX_FILES MAX_BYTES = Ok picked /\
    (length picked <= 25)%nat /\
    (total_bytes tree picked < 40000)%Z /\
    (messages = [system_message; context_message blob;
                 task_message (task_of w) []] \/
     messages = [system_message; context_message blob;
                 task_message (task_of w) RETRY_INSTRUCTION]).
Proof.
  exec; cbn [fst]; intros Hin; in_cases Hin;
    injection Hin as <- <- <- <-;
    (split; [reflexivity|]); (split; [reflexivity|]);
    match goal with
    | H : sampleRepoContext ?t _ _ = Ok ?b |- _ =>
        destruct (@default_sample_bounds _ _ H) as [picked [Hpick [Hn Hb]]];
        exists t, b, picked
    end;
    repeat (split; [first [reflexivity | eassumption]|]);
    first [left; reflexivity | right; reflexivity].
Qed.

Lemma requests_carry_sampled_context_witness :
  0%Z = 0%Z /\
  DEFAULT_MODEL =
  or_default (OPENAI_ASSISTANT_MODEL second_time_lucky) DEFAULT_MODEL /\
  exists tree blob picked,
    tip (remote_repo second_time_lucky)
        (default_branch (remote_repo second_time_lucky)) = Some tree /\
    sampleRepoContext tree MAX_FILES MAX_BYTES = Ok blob /\
    pickFiles tree MAX_FILES MAX_BYTES = Ok picked /\
    (length picked <= 25)%nat /\
    (total_bytes tree picked < 40000)%Z /\
    (Examples.messages_with RETRY_INSTRUCTION =
     [system_message; context_message blob;
      task_message (task_of second_time_lucky) []] \/
     Examples.messages_with RETRY_INSTRUCTION =
     [system_message; context_message blob;
      task_message (task_of second_time_lucky) RETRY_INSTRUCTION]).
Proof.
  apply (@requests_carry_sampled_context second_time_lucky DEFAULT_MODEL 0%Z
           (Examples.messages_with RETRY_INSTRUCTION)
           (Some Examples.a_diff)).
  vm_compute. repeat first [left; reflexivity | right].
Defined.

(** X16. When a run reports an I/O error (the temporary directory
    could not be made, or a file could not be sized or read while
    sampling), it exits with status 1 before any request to the model,
    any apply attempt and any commit. *)
Theorem io_error_stops_before_the_model (w : World) (p : jsstring) :
  In (ConsoleErrorObj (IOError p)) (fst (program w)) ->
  snd (program w) = 1%Z /\
  count is_request (fst (program w)) = 0%nat /\
  count is_apply (fst (program w)) = 0%nat /\
  count is_commit (fst (program w)) = 0%nat.
Proof.
  exec; cbn [fst snd]; intros Hin; in_cases Hin; tidy_more;
    repeat split; reflexivity.
Qed.

Lemma io_error_stops_before_the_model_witness :
  snd (program file_gone) = 1%Z /\
  count is_request (fst (program file_gone)) = 0%nat /\
  count is_apply (fst (program file_gone)) = 0%nat /\
  count is_commit (fst (program file_gone)) = 0%nat.
Proof.
  apply (@io_error_stops_before_the_model file_gone (lit "gone.js")).
  vm_compute. repeat first [left; reflexivity | right].
Defined.

(** X15. From any history, [applyOrRetry] either returns the patch
    that [git apply] has just accepted (the given patch itself on a
    retry call), or throws [patch failed twice] or the model's error; a
    retry call makes one apply attempt and nothing else. The error of
    [run] never leaves it, and it never exits the process. *)
Theorem applyOrRetry_outcomes (w : World) (tmpDir task contextBlob : jsstring)
        (patch : jsstring) (isRetry : bool) (h : list Event) :
  match applyOrRetry w tmpDir task contextBlob patch isRetry h with
  | (h', Return q) =>
      exists status rest,
        h' = Spawn (lit "git") [lit "apply"; lit "-"] tmpDir q status :: rest /\
        status_ok status = true /\
        (isRetry = true -> q = patch /\ rest = h)
  | (h', Throw e) =>
      (e = PatchFailedTwice \/ e = ModelError) /\
      (isRetry = true ->
       e = PatchFailedTwice /\
       exists status,
         h' = Spawn (lit "git") [lit "apply"; lit "-"] tmpDir patch status :: h)
  | (_, Exited _) => False
  end.
Proof.
  destruct isRetry;
    [rewrite applyOrRetry_equation_1 | rewrite applyOrRetry_equation_2];
    unfold_ops; repeat (case_step; unfold_ops);
    try (do 2 eexists; split; [reflexivity|]; split; [assumption|];
         intros H; try discriminate H; now split);
    (split; [auto|]); intros H; try discriminate H;
    split; [reflexivity | eexists; reflexivity].
Qed.

End BotMore.
